(** * Chat and game-page plumbing: a shallow embedding

    The development follows the TypeScript sources: the chat service
    ([saveChat], [createMessage], [addMessageToChat], [getChat],
    [getChatsByParticipants], [addParticipantToChat]), the chat controller
    (request validators, the five routes, the socket connection handler), the
    direct-message hook ([handleSendMessage], [handleChatUpdate]) and the
    game-page hook ([handleLeaveGame]).

    Asynchronous functions are written in a monad that threads the server
    world, may throw, and records the observable events of a run. *)

From Stdlib Require Import String Ascii ZArith List Bool.
From stdpp Require Import base option list gmap strings pretty.

(** ** JavaScript values, as far as the sources look at them *)

Module Js.

(** A value received in a request body or a route parameter.  Numbers are
    integers here; the code never computes with them. *)
#[warnings="-register-all"]
Inductive value :=
| Undefined
| Null
| Boolean (b : bool)
| Number (n : Z)
| Str (s : string)
| Array (elems : list value)
| Object (fields : list (string * value)).

(** [!!v] *)
Definition truthy (v : value) : bool :=
  match v with
  | Undefined | Null => false
  | Boolean b => b
  | Number n => negb (n =? 0)%Z
  | Str s => negb (String.eqb s "")
  | Array _ | Object _ => true
  end.

(** [typeof v] *)
Definition typeof (v : value) : string :=
  match v with
  | Undefined => "undefined"
  | Null => "object"
  | Boolean _ => "boolean"
  | Number _ => "number"
  | Str _ => "string"
  | Array _ | Object _ => "object"
  end.

(** [Array.isArray(v)] *)
Definition isArray (v : value) : bool :=
  match v with Array _ => true | _ => false end.

(** [v.length] of an array *)
Definition arrayLength (v : value) : nat :=
  match v with Array l => length l | _ => 0 end.

(** The static type of a field says [string]; the validators establish it
    at run time before the value is used.  Any other value is outside the
    declared request type. *)
Definition asString (v : value) : string :=
  match v with Str s => s | _ => "" end.

(** The elements of an array. *)
Definition elements (v : value) : list value :=
  match v with Array l => l | _ => [] end.

(** Truthiness of a [string | undefined]. *)
Definition truthyStr (s : string) : bool := negb (String.eqb s "").

Definition truthyOpt (o : option string) : bool :=
  match o with Some s => truthyStr s | None => false end.

(** A [string | undefined] that passed an [if (x)] test. *)
Definition whenTruthy (o : option string) : option string :=
  match o with
  | Some s => if truthyStr s then Some s else None
  | None => None
  end.

(** [a === b] on [string | undefined] *)
Definition strictEq (a b : option string) : bool :=
  match a, b with
  | Some x, Some y => String.eqb x y
  | None, None => true
  | _, _ => false
  end.

(** [String.prototype.trim].  A character stands for one code unit below
    256; the white space and line terminators in that range are TAB, LF,
    VT, FF, CR, SPACE and NBSP. *)
Definition isWhiteSpace (c : ascii) : bool :=
  let n := nat_of_ascii c in
  ((9 <=? n)%nat && (n <=? 13)%nat) || (n =? 32)%nat || (n =? 160)%nat.

Fixpoint trimStart (s : string) : string :=
  match s with
  | EmptyString => EmptyString
  | String c rest => if isWhiteSpace c then trimStart rest else s
  end.

Fixpoint trimEnd (s : string) : string :=
  match s with
  | EmptyString => EmptyString
  | String c rest =>
      match trimEnd rest with
      | EmptyString => if isWhiteSpace c then EmptyString else String c EmptyString
      | kept => String c kept
      end
  end.

Definition trim (s : string) : string := trimEnd (trimStart s).

(** What a [catch] clause receives: an [Error] with its message, or some
    other thrown value, kept as its [String(...)] rendering. *)
Inductive thrown :=
| Error (message : string)
| NonError (rendering : string).

(** [error instanceof Error ? error.message : fallback] *)
Definition messageOr (fallback : string) (e : thrown) : string :=
  match e with Error m => m | NonError _ => fallback end.

(** [error instanceof Error ? error.message : String(error)] *)
Definition messageOrString (e : thrown) : string :=
  match e with Error m => m | NonError r => r end.

(** The settlement of a promise. *)
Inductive outcome (A : Type) :=
| Resolved (a : A)
| Rejected (e : thrown).
Arguments Resolved {A} a.
Arguments Rejected {A} e.

End Js.

Export Js(outcome, Resolved, Rejected, thrown, Error, NonError).

(** ** The server: chat documents, the store and the monad of async code *)

Module Server.

(** A message as the service receives and stores it.  [msg_id] is [None]
    until the store has assigned an identifier. *)
Record Message := mkMessage {
  msg_id : option string;
  msg : string;
  msgFrom : string;
  msgDateTime : Z;
  msgType : option string;
}.

(** A chat document: participants and the identifiers of its messages. *)
Record Chat := mkChat {
  chat_id : string;
  participants : list string;
  messages : list string;
}.

(** [CreateChatPayload]: participants and optional initial messages. *)
Record CreateChatPayload := mkCreateChatPayload {
  p_participants : list string;
  p_messages : option (list Message);
}.

(** [ChatResponse] and [MessageResponse]: the document, or [{ error }]. *)
Inductive response (A : Type) :=
| Doc (doc : A)
| Failure (error : string).
Arguments Doc {A} doc.
Arguments Failure {A} error.

(** A chat with participants and messages resolved, as [populateDocument]
    hands it to the routes. *)
Record PopulatedChat := mkPopulatedChat {
  pc_id : string;
  pc_participants : list string;
  pc_messages : list Message;
}.

(** What [populateDocument] resolves to: the populated document, an
    [{ error }] object, or a falsy value. *)
Inductive populated :=
| Populated (doc : PopulatedChat)
| PopulateError (error : string)
| PopulateNull.

(** The server world: the two collections, the counter behind fresh
    identifiers, the clock read by [new Date()], and the failures the
    database driver is going to raise, one entry per driver call
    ([None]: the call goes through).  Quantifying over [faults] covers every
    way the database can fail. *)
Record World := mkWorld {
  messagesColl : list Message;
  chatsColl : list Chat;
  oidCounter : nat;
  clock : Z;
  faults : list (option thrown);
}.

Definition withFaults (f : list (option thrown)) (w : World) : World :=
  mkWorld (messagesColl w) (chatsColl w) (oidCounter w) (clock w) f.

(** *** Observable events *)

Inductive ServiceCall :=
| CallSaveChat (chatPayload : CreateChatPayload)
| CallCreateMessage (messageData : Message)
| CallAddMessageToChat (chatId messageId : string)
| CallGetChat (chatId : string)
| CallGetChatsByParticipants (p : list string)
| CallAddParticipantToChat (chatId userId : string)
| CallPopulateDocument (id kind : string).

(** [socket.emit] reaches every client, [socket.to(room).emit] one room. *)
Inductive Target :=
| AllClients
| Room (name : string).

Inductive JsonBody :=
| ErrorObject (error : string)
| ChatJson (chat : Chat)
| PopulatedJson (doc : option PopulatedChat)
| PopulatedListJson (docs : list (option PopulatedChat)).

(** [res.json(b)] sends JSON, [res.send(text)] a plain-text body. *)
Inductive Body :=
| Json (b : JsonBody)
| Text (s : string).

Inductive Event :=
| Db (call : ServiceCall)
| Emit (target : Target) (event : string) (payload : option PopulatedChat)
| Respond (status : nat) (body : Body).

(** *** The monad *)

Definition M (A : Type) : Type := World -> outcome A * World * list Event.

Definition ret {A} (a : A) : M A := fun w => (Resolved a, w, []).

Definition bind {A B} (m : M A) (k : A -> M B) : M B := fun w =>
  match m w with
  | (Resolved a, w1, t1) =>
      match k a w1 with (r, w2, t2) => (r, w2, t1 ++ t2) end
  | (Rejected e, w1, t1) => (Rejected e, w1, t1)
  end.

#[global] Instance M_ret : MRet M := @ret.
#[global] Instance M_bind : MBind M := fun A B k m => bind m k.

(** [throw e] *)
Definition throw {A} (e : thrown) : M A := fun w => (Rejected e, w, []).

(** [try { body } catch (error) { handler }] *)
Definition tryCatch {A} (body : M A) (handler : thrown -> M A) : M A := fun w =>
  match body w with
  | (Resolved a, w1, t1) => (Resolved a, w1, t1)
  | (Rejected e, w1, t1) =>
      match handler e w1 with (r, w2, t2) => (r, w2, t1 ++ t2) end
  end.

Definition tell (ev : Event) : M unit := fun w => (Resolved tt, w, [ev]).

(** [new Date()] *)
Definition newDate : M Z := fun w => (Resolved (clock w), w, []).

(** An imported asynchronous function that only reads the world. *)
Definition readWorld {A} (f : World -> outcome A) : M A := fun w => (f w, w, []).

Definition trace {A} (m : M A) (w : World) : list Event := (m w).2.
Definition result {A} (m : M A) (w : World) : outcome A := (m w).1.1.
Definition after {A} (m : M A) (w : World) : World := (m w).1.2.

(** *** What the sources import from elsewhere *)

(** [populateDocument] lives in [utils/database.util] and identifiers are
    made by the database; both are taken as given.  So is what is left to
    the database and to timing: how many documents an [insertMany] that
    fails has written before it failed, what the chat schema stores for a
    participant that is not a string, and which of several rejections of
    promises that run at the same time comes first (as a position in the
    list of the rejections). *)
Class Externals := {
  newObjectId : nat -> string;
  populateDocument : string -> string -> World -> outcome populated;
  insertedBeforeFailure : World -> list Message -> nat;
  castParticipant : Js.value -> string;
  firstRejection : World -> list thrown -> nat;
}.

(** *** The database driver (Mongoose), on the in-memory store *)

(** Every driver call first consumes one entry of [faults]; an exhausted
    list means no failure. *)
Definition nextFault (w : World) : option thrown :=
  match faults w with
  | Some e :: _ => Some e
  | _ => None
  end.

Definition consumeFault (w : World) : World :=
  match faults w with
  | _ :: rest => withFaults rest w
  | [] => w
  end.

(** A call that reads, or writes one document: when it fails, nothing has
    been written. *)
Definition driver {A} (op : World -> A * World) : M A := fun w =>
  match nextFault w with
  | Some e => (Rejected e, consumeFault w, [])
  | None => match op (consumeFault w) with (a, w1) => (Resolved a, w1, []) end
  end.

(** The update operators the service uses. *)
Inductive Update :=
| PushMessage (messageId : string)
| AddToSetParticipant (userId : string).

(** [$push] appends; [$addToSet] appends unless the value is already there. *)
Definition applyUpdate (u : Update) (c : Chat) : Chat :=
  match u with
  | PushMessage m => mkChat (chat_id c) (participants c) (messages c ++ [m])
  | AddToSetParticipant p =>
      if existsb (String.eqb p) (participants c) then c
      else mkChat (chat_id c) (participants c ++ [p]) (messages c)
  end.

Fixpoint updateById (chatId : string) (u : Update) (cs : list Chat)
  : option Chat * list Chat :=
  match cs with
  | [] => (None, [])
  | c :: rest =>
      if String.eqb (chat_id c) chatId
      then (Some (applyUpdate u c), applyUpdate u c :: rest)
      else match updateById chatId u rest with
           | (found, rest1) => (found, c :: rest1)
           end
  end.

(** [{ participants: { $all: p } }]; [$all] with an empty array matches no
    document. *)
Definition matchesAll (p : list string) (c : Chat) : bool :=
  match p with
  | [] => false
  | _ => forallb (fun name => existsb (String.eqb name) (participants c)) p
  end.

Section Services.
Context `{Externals}.

(** A stored message keeps its identifier when the payload gave one and
    gets a fresh one otherwise. *)
Definition stamp (n : nat) (m : Message) : Message :=
  match msg_id m with
  | Some _ => m
  | None => mkMessage (Some (newObjectId n)) (msg m) (msgFrom m) (msgDateTime m) (msgType m)
  end.

Fixpoint stampAll (n : nat) (ms : list Message) : list Message :=
  match ms with
  | [] => []
  | m :: rest => stamp n m :: stampAll (S n) rest
  end.

(** What an interrupted [insertMany] leaves behind: the insert is ordered,
    so the documents before the failing one have been written. *)
Definition insertPrefix (docs : list Message) (w : World) : World :=
  let written := stampAll (oidCounter w) (firstn (insertedBeforeFailure w docs) docs) in
  mkWorld (messagesColl w ++ written) (chatsColl w)
          (oidCounter w + length written) (clock w) (faults w).

(** [MessageModel.insertMany(docs)] *)
Definition MessageModel_insertMany (docs : list Message) : M (list Message) := fun w =>
  match nextFault w with
  | Some e => (Rejected e, insertPrefix docs (consumeFault w), [])
  | None =>
      driver (fun w =>
        let saved := stampAll (oidCounter w) docs in
        (saved, mkWorld (messagesColl w ++ saved) (chatsColl w)
                        (oidCounter w + length docs) (clock w) (faults w))) w
  end.

(** [new MessageModel(data).save()] *)
Definition MessageModel_save (data : Message) : M Message :=
  driver (fun w =>
    let saved := stamp (oidCounter w) data in
    (saved, mkWorld (messagesColl w ++ [saved]) (chatsColl w)
                    (S (oidCounter w)) (clock w) (faults w))).

(** [new ChatModel({ participants, messages }).save()] *)
Definition ChatModel_save (ps : list string) (ms : list string) : M Chat :=
  driver (fun w =>
    let saved := mkChat (newObjectId (oidCounter w)) ps ms in
    (saved, mkWorld (messagesColl w) (chatsColl w ++ [saved])
                    (S (oidCounter w)) (clock w) (faults w))).

(** [ChatModel.findByIdAndUpdate(chatId, update, { new: true })] *)
Definition ChatModel_findByIdAndUpdate (chatId : string) (u : Update)
  : M (option Chat) :=
  driver (fun w =>
    match updateById chatId u (chatsColl w) with
    | (found, cs) =>
        (found, mkWorld (messagesColl w) cs (oidCounter w) (clock w) (faults w))
    end).

(** [ChatModel.findById(chatId)] *)
Definition ChatModel_findById (chatId : string) : M (option Chat) :=
  driver (fun w =>
    (List.find (fun c => String.eqb (chat_id c) chatId) (chatsColl w), w)).

(** [ChatModel.find({ participants: { $all: p } }).lean()] *)
Definition ChatModel_find (p : list string) : M (list Chat) :=
  driver (fun w => (List.filter (matchesAll p) (chatsColl w), w)).

(** [doc._id.toString()]; a stored message always has its identifier. *)
Definition idToString (m : Message) : string :=
  match msg_id m with Some i => i | None => "" end.

(** *** chat.service *)

Definition saveChat (chatPayload : CreateChatPayload) : M (response Chat) :=
  tell (Db (CallSaveChat chatPayload));;
  tryCatch
    (messageIds ←
       match p_messages chatPayload with
       | Some (m :: ms) =>
           savedMessages ← MessageModel_insertMany (m :: ms);
           mret (map idToString savedMessages)
       | _ => mret []
       end;
     savedChat ← ChatModel_save (p_participants chatPayload) messageIds;
     mret (Doc savedChat))
    (fun error => mret (Failure (Js.messageOr "Failed to save chat" error))).

Definition createMessage (messageData : Message) : M (response Message) :=
  tell (Db (CallCreateMessage messageData));;
  tryCatch
    (savedMessage ← MessageModel_save messageData;
     mret (Doc savedMessage))
    (fun error => mret (Failure (Js.messageOr "Failed to create message" error))).

Definition addMessageToChat (chatId messageId : string) : M (response Chat) :=
  tell (Db (CallAddMessageToChat chatId messageId));;
  tryCatch
    (updatedChat ← ChatModel_findByIdAndUpdate chatId (PushMessage messageId);
     match updatedChat with
     | None => mret (Failure "Chat not found")
     | Some c => mret (Doc c)
     end)
    (fun error => mret (Failure (Js.messageOr "Failed to add message to chat" error))).

Definition getChat (chatId : string) : M (response Chat) :=
  tell (Db (CallGetChat chatId));;
  tryCatch
    (chat ← ChatModel_findById chatId;
     match chat with
     | None => mret (Failure "Chat not found")
     | Some c => mret (Doc c)
     end)
    (fun error => mret (Failure (Js.messageOr "Failed to retrieve chat" error))).

(** The guard [!chats || !Array.isArray(chats) || chats.length === 0] is the
    length test here: the driver always hands back an array. *)
Definition getChatsByParticipants (p : list string) : M (list Chat) :=
  tell (Db (CallGetChatsByParticipants p));;
  tryCatch
    (chats ← ChatModel_find p;
     if (length chats =? 0)%nat then mret [] else mret chats)
    (fun error => mret []).

(** The result is [{ ...updatedChat.toObject(), _id: updatedChat._id.toString() }],
    the same fields with the identifier as a string. *)
Definition addParticipantToChat (chatId userId : string) : M (response Chat) :=
  tell (Db (CallAddParticipantToChat chatId userId));;
  tryCatch
    (updatedChat ← ChatModel_findByIdAndUpdate chatId (AddToSetParticipant userId);
     match updatedChat with
     | None => mret (Failure "Chat not found")
     | Some c => mret (Doc (mkChat (chat_id c) (participants c) (messages c)))
     end)
    (fun error => mret (Failure (Js.messageOr "Failed to update chat" error))).

End Services.

(** *** chat.controller: requests *)

Record CreateChatBody := mkCreateChatBody {
  body_participants : Js.value;
  body_messages : option (list Message);
}.

(** [body] is [None] when the request carries no (or a falsy) body. *)
Record CreateChatRequest := mkCreateChatRequest {
  cc_body : option CreateChatBody;
}.

Record AddMessageBody := mkAddMessageBody {
  body_msg : Js.value;
  body_msgFrom : Js.value;
  body_msgDateTime : option Z;
  body_type : option string;
}.

Record AddMessageRequestToChat := mkAddMessageRequest {
  am_chatId : string;
  am_body : option AddMessageBody;
}.

Record AddParticipantBody := mkAddParticipantBody {
  body_participantId : Js.value;
}.

Record ChatParams := mkChatParams {
  param_chatId : Js.value;
}.

Record AddParticipantRequest := mkAddParticipantRequest {
  ap_params : option ChatParams;
  ap_body : option AddParticipantBody;
}.

Record ChatIdRequest := mkChatIdRequest {
  ci_chatId : option string;
}.

Record GetChatByParticipantsRequest := mkGetChatByParticipantsRequest {
  gp_username : option string;
}.

(** [req.body?.participants] *)
Definition requestParticipants (req : CreateChatRequest) : Js.value :=
  match cc_body req with
  | Some b => body_participants b
  | None => Js.Undefined
  end.

(** A participant as the chat document holds it: a string is kept as it
    is, any other value is what the schema makes of it. *)
Definition participantOf `{Externals} (v : Js.value) : string :=
  match v with
  | Js.Str s => s
  | _ => castParticipant v
  end.

(** [req.body], as [saveChat] receives it. *)
Definition requestPayload `{Externals} (req : CreateChatRequest) : CreateChatPayload :=
  mkCreateChatPayload
    (map participantOf (Js.elements (requestParticipants req)))
    (match cc_body req with Some b => body_messages b | None => None end).

(** *** chat.controller: validators *)

Definition isCreateChatRequestValid (req : CreateChatRequest) : bool :=
  Js.isArray (requestParticipants req)
  && (0 <? Js.arrayLength (requestParticipants req))%nat.

Definition isAddMessageRequestValid (req : AddMessageRequestToChat) : bool :=
  match am_body req with
  | None => false
  | Some b =>
      Js.truthy (body_msg b)
      && Js.truthy (body_msgFrom b)
      && String.eqb (Js.typeof (body_msg b)) "string"
      && String.eqb (Js.typeof (body_msgFrom b)) "string"
  end.

Definition isAddParticipantRequestValid (req : AddParticipantRequest) : bool :=
  match ap_body req, ap_params req with
  | Some body, Some params =>
      Js.truthy (body_participantId body)
      && Js.truthy (param_chatId params)
      && String.eqb (Js.typeof (body_participantId body)) "string"
      && String.eqb (Js.typeof (param_chatId params)) "string"
  | _, _ => false
  end.

(** *** chat.controller: routes *)

Section Controller.
Context `{Externals}.

(** Reading a property of [undefined]. *)
Definition typeError : thrown :=
  Error "Cannot destructure a property of undefined".

(** [res.status(code).json(body)] *)
Definition respondJson (code : nat) (b : JsonBody) : M unit :=
  tell (Respond code (Json b)).

(** [res.status(code).send(text)] *)
Definition respondText (code : nat) (text : string) : M unit :=
  tell (Respond code (Text text)).

(** [socket.emit(event, payload)] *)
Definition socketEmit (event : string) (payload : option PopulatedChat) : M unit :=
  tell (Emit AllClients event payload).

(** [socket.to(room).emit(event, payload)] *)
Definition socketToEmit (room event : string) (payload : option PopulatedChat) : M unit :=
  tell (Emit (Room room) event payload).

(** The call of the imported [populateDocument]. *)
Definition populate (id kind : string) : M populated :=
  tell (Db (CallPopulateDocument id kind));;
  readWorld (populateDocument id kind).

(** The value sent on once the [{ error }] case is out of the way. *)
Definition populatedValue (p : populated) : option PopulatedChat :=
  match p with Populated d => Some d | _ => None end.

Definition createChatRoute (req : CreateChatRequest) : M unit :=
  tryCatch
    (if negb (isCreateChatRequestValid req)
     then respondJson 400 (ErrorObject "Invalid request body")
     else
       chat ← saveChat (requestPayload req);
       match chat with
       | Failure e => respondJson 500 (ErrorObject e)
       | Doc c =>
           populatedDoc ← populate (chat_id c) "chat";
           match populatedDoc with
           | PopulateError e => throw (Error e)
           | _ =>
               socketEmit "chatUpdate" (populatedValue populatedDoc);;
               respondJson 200 (PopulatedJson (populatedValue populatedDoc))
           end
       end)
    (fun error => respondJson 500 (ErrorObject "Failed to create chat")).

Definition addMessageToChatRoute (req : AddMessageRequestToChat) : M unit :=
  tryCatch
    (if negb (isAddMessageRequestValid req)
     then respondJson 400 (ErrorObject "Invalid request body")
     else
       let chatId := am_chatId req in
       match am_body req with
       | None => throw typeError
       | Some messageData =>
           msgDateTime ←
             match body_msgDateTime messageData with
             | Some d => mret d
             | None => newDate
             end;
           let messagePayload :=
             mkMessage None
               (Js.asString (body_msg messageData))
               (Js.asString (body_msgFrom messageData))
               msgDateTime
               (Some (match body_type messageData with
                      | Some t => t
                      | None => "direct"
                      end)) in
           message ← createMessage messagePayload;
           match message with
           | Failure e => respondJson 500 (ErrorObject e)
           | Doc m =>
               if negb (Js.truthyOpt (msg_id m))
               then respondJson 500 (ErrorObject "Message ID is undefined")
               else
                 updatedChat ← addMessageToChat chatId (idToString m);
                 match updatedChat with
                 | Failure e => respondJson 500 (ErrorObject e)
                 | Doc _ =>
                     populatedChat ← populate chatId "chat";
                     match populatedChat with
                     | PopulateError e => throw (Error e)
                     | _ =>
                         socketToEmit chatId "chatUpdate" (populatedValue populatedChat);;
                         respondJson 200 (PopulatedJson (populatedValue populatedChat))
                     end
                 end
           end
       end)
    (fun error => respondJson 500 (ErrorObject "Failed to add message to chat")).

Definition getChatRoute (req : ChatIdRequest) : M unit :=
  tryCatch
    (match ci_chatId req with
     | Some chatId =>
         if negb (Js.truthyStr chatId)
         then respondJson 400 (ErrorObject "Chat ID is required")
         else
           chat ← getChat chatId;
           match chat with
           | Failure e => respondJson 500 (ErrorObject e)
           | Doc c =>
               populatedChat ← populate (chat_id c) "chat";
               match populatedChat with
               | PopulateError e => throw (Error e)
               | _ => respondJson 200 (PopulatedJson (populatedValue populatedChat))
               end
           end
     | None => respondJson 400 (ErrorObject "Chat ID is required")
     end)
    (fun error => respondJson 500 (ErrorObject "Failed to retrieve chat")).

(** The promises handed to [Promise.all] have all been started: every one
    runs, in the order of the array, and settles in its own way. *)
Fixpoint startAll {A} (ps : list (M A)) (w : World)
  : list (outcome A) * World * list Event :=
  match ps with
  | [] => ([], w, [])
  | p :: rest =>
      match p w with
      | (r, w1, t1) =>
          match startAll rest w1 with
          | (rs, w2, t2) => (r :: rs, w2, t1 ++ t2)
          end
      end
  end.

Definition rejections {A} (rs : list (outcome A)) : list thrown :=
  omap (fun r => match r with Rejected e => Some e | Resolved _ => None end) rs.

Definition fulfilled {A} (rs : list (outcome A)) : list A :=
  omap (fun r => match r with Resolved a => Some a | Rejected _ => None end) rs.

(** How [Promise.all] settles: with the values in the order of the array
    when no promise rejects, and otherwise with the rejection that comes
    first in time, which is one of the rejections. *)
Definition settleAll {A} (w : World) (rs : list (outcome A)) : outcome (list A) :=
  match rejections rs with
  | [] => Resolved (fulfilled rs)
  | e :: es => Rejected (nth (firstRejection w (e :: es)) (e :: es) e)
  end.

Definition promiseAll {A} (ps : list (M A)) : M (list A) := fun w =>
  match startAll ps w with
  | (rs, w1, t) => (settleAll w rs, w1, t)
  end.

Definition populateOne (chat : Chat) : M (option PopulatedChat) :=
  populated ← populate (chat_id chat) "chat";
  match populated with
  | PopulateError _ => throw (Error "Failed populating chats")
  | _ => mret (populatedValue populated)
  end.

Definition getChatsByUserRoute (req : GetChatByParticipantsRequest) : M unit :=
  tryCatch
    (match gp_username req with
     | Some username =>
         if negb (Js.truthyStr username)
         then respondJson 400 (ErrorObject "Username parameter is required")
         else
           chats ← getChatsByParticipants [username];
           populatedChats ← promiseAll (map populateOne chats);
           respondJson 200 (PopulatedListJson populatedChats)
     | None => respondJson 400 (ErrorObject "Username parameter is required")
     end)
    (fun error =>
       let errorMsg := Js.messageOrString error in
       respondText 500 ("Error retrieving chat: " ++ errorMsg)%string).

Definition addParticipantToChatRoute (req : AddParticipantRequest) : M unit :=
  tryCatch
    (if negb (isAddParticipantRequestValid req)
     then respondJson 400 (ErrorObject "Invalid request body")
     else
       match ap_params req, ap_body req with
       | Some params, Some body =>
           let chatId := Js.asString (param_chatId params) in
           let participantId := Js.asString (body_participantId body) in
           updatedChat ← addParticipantToChat chatId participantId;
           match updatedChat with
           | Failure e => respondJson 500 (ErrorObject e)
           | Doc c =>
               populatedChat ← populate chatId "chat";
               match populatedChat with
               | PopulateError e => throw (Error e)
               | _ =>
                   socketToEmit chatId "chatUpdate" (populatedValue populatedChat);;
                   respondJson 200 (ChatJson c)
               end
           end
       | _, _ => throw typeError
       end)
    (fun error => respondJson 500 (ErrorObject "Failed to add participant to chat")).

End Controller.

(** *** chat.controller: the connection handler *)

(** The rooms one connection is in.  A listener gets the event's argument,
    [None] when the client sent [undefined]. *)
Definition Listener : Type := option string -> gset string -> gset string.

(** [conn.on('joinChat', chatID => { if (chatID) conn.join(chatID) })] *)
Definition onJoinChat : Listener := fun chatID rooms =>
  match chatID with
  | Some room => if Js.truthyStr room then {[room]} ∪ rooms else rooms
  | None => rooms
  end.

(** [conn.on('leaveChat', chatID => { if (chatID) conn.leave(chatID) })] *)
Definition onLeaveChat : Listener := fun chatID rooms =>
  match chatID with
  | Some room => if Js.truthyStr room then rooms ∖ {[room]} else rooms
  | None => rooms
  end.

(** The listeners the controller registers on a new connection. *)
Definition connectionListeners : list (string * Listener) :=
  [("joinChat"%string, onJoinChat); ("leaveChat"%string, onLeaveChat)].

(** An incoming event runs every listener registered under its name. *)
Definition receive (event : string) (arg : option string) (rooms : gset string)
  : gset string :=
  fold_left
    (fun acc entry => if String.eqb entry.1 event then entry.2 arg acc else acc)
    connectionListeners rooms.

End Server.

(** ** The client: the direct-message hook *)

Module DirectMessage.

Record User := mkUser {
  user_id : option string;
  username : string;
}.

(** The [user] field the hook attaches to a message it has sent. *)
Record MessageUser := mkMessageUser {
  mu_id : option string;
  mu_username : string;
}.

Record Message := mkMessage {
  msg_id : option string;
  msg : string;
  msgFrom : string;
  msgDateTime : Z;
  msgType : option string;
  msgUser : option MessageUser;
}.

(** A chat on the client.  An entry of [messages] is [None] where the array
    holds [undefined]. *)
Record Chat := mkChat {
  chat_id : option string;
  participants : list string;
  messages : list (option Message);
}.

Record ChatUpdatePayload := mkChatUpdatePayload {
  update_chat : Chat;
  update_type : string;
}.

(** The argument of the [sendMessage] service call. *)
Record MessagePayload := mkMessagePayload {
  mp_chat : string;
  mp_msgFrom : string;
  mp_msg : string;
  mp_msgDateTime : Z;
}.

(** The hook's [useState] cells. *)
Record State := mkState {
  showCreatePanel : bool;
  chatToCreate : string;
  selectedChat : option Chat;
  chats : list Chat;
  newMessage : string;
}.

Definition setSelectedChat (c : option Chat) (st : State) : State :=
  mkState (showCreatePanel st) (chatToCreate st) c (chats st) (newMessage st).

Definition setChats (f : list Chat -> list Chat) (st : State) : State :=
  mkState (showCreatePanel st) (chatToCreate st) (selectedChat st) (f (chats st)) (newMessage st).

Definition setNewMessage (text : string) (st : State) : State :=
  mkState (showCreatePanel st) (chatToCreate st) (selectedChat st) (chats st) text.

(** What the hook does to the outside. *)
Inductive Effect :=
| ApiSendMessage (messagePayload : MessagePayload) (chatID : string)
| SocketEmit (event : string) (arg : string).

(** [array[0]] *)
Definition first (l : list (option Message)) : option Message :=
  match l with
  | m :: _ => m
  | [] => None
  end.

(** [handleSendMessage]; [sendMessage] is the service call with the server's
    answer, [now] the value of [new Date()]. *)
Definition handleSendMessage
    (sendMessage : MessagePayload -> string -> outcome Message)
    (now : Z) (user : User) (st : State)
  : outcome unit * State * list Effect :=
  if negb (Js.truthyStr (Js.trim (newMessage st))) then (Resolved tt, st, [])
  else
    match selectedChat st with
    | None => (Resolved tt, st, [])
    | Some selected =>
        match Js.whenTruthy (chat_id selected), Js.whenTruthy (user_id user) with
        | Some chatID, Some userID =>
            let messagePayload :=
              mkMessagePayload chatID userID (Js.trim (newMessage st)) now in
            match sendMessage messagePayload chatID with
            | Rejected e => (Rejected e, st, [ApiSendMessage messagePayload chatID])
            | Resolved message =>
                let sent :=
                  mkMessage (msg_id message) (msg message) (msgFrom message)
                    (msgDateTime message) (msgType message)
                    (Some (mkMessageUser (Some userID) (username user))) in
                (Resolved tt,
                 setNewMessage ""
                   (setSelectedChat
                      (Some (mkChat (chat_id selected) (participants selected)
                               (messages selected ++ [Some sent])))
                      st),
                 [ApiSendMessage messagePayload chatID])
            end
        | _, _ => (Resolved tt, st, [])
        end
    end.

(** [handleChatUpdate], the listener of ['chatUpdate']. *)
Definition handleChatUpdate (chatUpdate : ChatUpdatePayload) (st : State) : State :=
  if String.eqb (update_type chatUpdate) "created" then
    setChats (fun prevChats => prevChats ++ [update_chat chatUpdate]) st
  else if String.eqb (update_type chatUpdate) "newMessage" then
    match selectedChat st with
    | Some selected =>
        if Js.strictEq (chat_id selected) (chat_id (update_chat chatUpdate))
        then
          setSelectedChat
            (Some (mkChat (chat_id selected) (participants selected)
                     (messages selected ++ [first (messages (update_chat chatUpdate))])))
            st
        else st
    | None => st
    end
  else st.

(** *** The other handlers of the hook *)

Definition setChatToCreate (name : string) (st : State) : State :=
  mkState (showCreatePanel st) name (selectedChat st) (chats st) (newMessage st).

Definition setShowCreatePanel (shown : bool) (st : State) : State :=
  mkState shown (chatToCreate st) (selectedChat st) (chats st) (newMessage st).

(** What these handlers do to the outside: the chat-service calls, what
    they send on the socket, and the listener they register and drop. *)
Inductive Action :=
| ApiGetChatById (chatID : string)
| ApiCreateChat (participants : list string)
| ApiGetChatsByUser (userID : string)
| Emitted (event : string) (arg : string)
| Subscribed (event : string)
| Unsubscribed (event : string).

(** [handleJoinChat] *)
Definition handleJoinChat (chatID : string) : list Action :=
  [Emitted "joinChat" chatID].

(** [handleChatSelect] *)
Definition handleChatSelect
    (getChatById : string -> outcome Chat)
    (chatID : option string) (st : State)
  : outcome unit * State * list Action :=
  match Js.whenTruthy chatID with
  | None => (Resolved tt, st, [])
  | Some id =>
      match getChatById id with
      | Rejected e => (Rejected e, st, [ApiGetChatById id])
      | Resolved chat =>
          (Resolved tt, setSelectedChat (Some chat) st,
           ApiGetChatById id :: handleJoinChat id)
      end
  end.

(** [handleUserSelect] *)
Definition handleUserSelect (selectedUser : User) (st : State) : State :=
  setChatToCreate (username selectedUser) st.

(** [handleCreateChat] *)
Definition handleCreateChat
    (createChat : list string -> outcome Chat)
    (user : User) (st : State)
  : outcome unit * State * list Action :=
  if negb (Js.truthyStr (Js.trim (chatToCreate st))) then (Resolved tt, st, [])
  else
    match Js.whenTruthy (user_id user) with
    | None => (Resolved tt, st, [])
    | Some userID =>
        let members := [userID; Js.trim (chatToCreate st)] in
        match createChat members with
        | Rejected e => (Rejected e, st, [ApiCreateChat members])
        | Resolved newChat =>
            (Resolved tt,
             setChatToCreate ""
               (setShowCreatePanel false
                  (setSelectedChat (Some newChat)
                     (setChats (fun prevChats => prevChats ++ [newChat]) st))),
             ApiCreateChat members
             :: match Js.whenTruthy (chat_id newChat) with
                | Some id => handleJoinChat id
                | None => []
                end)
        end
    end.

(** [fetchChats], run by the effect. *)
Definition fetchChats
    (getChatsByUser : string -> outcome (list Chat))
    (user : User) (st : State)
  : outcome unit * State * list Action :=
  match Js.whenTruthy (user_id user) with
  | None => (Resolved tt, st, [])
  | Some userID =>
      match getChatsByUser userID with
      | Rejected e => (Rejected e, st, [ApiGetChatsByUser userID])
      | Resolved userChats =>
          (Resolved tt, setChats (fun _ => userChats) st, [ApiGetChatsByUser userID])
      end
  end.

(** The clean-up the effect returns. *)
Definition cleanup (st : State) : list Action :=
  Unsubscribed "chatUpdate"
  :: match selectedChat st with
     | Some selected =>
         match Js.whenTruthy (chat_id selected) with
         | Some id => [Emitted "leaveChat" id]
         | None => []
         end
     | None => []
     end.

(** The body of the effect: [fetchChats()] is started, then the listener
    of ['chatUpdate'] is registered. *)
Definition runEffect
    (getChatsByUser : string -> outcome (list Chat))
    (user : User) (st : State)
  : State * list Action :=
  let '(_, st1, actions) := fetchChats getChatsByUser user st in
  (st1, actions ++ [Subscribed "chatUpdate"]).

(** [selectedChat] is a dependency of the effect.  Once a handler has
    replaced it, the component renders again: the clean-up of the effect of
    the render before runs, which closed over the state of that render, and
    then the effect runs again. *)
Definition rerender
    (getChatsByUser : string -> outcome (list Chat))
    (user : User) (before current : State)
  : State * list Action :=
  let '(st1, actions) := runEffect getChatsByUser user current in
  (st1, cleanup before ++ actions).

(** [handleChatSelect], up to the end of the render it causes.  The handler
    runs to its end first, ['joinChat'] included; a new render follows when
    it has called [setSelectedChat], whose argument is the object the
    service has just made. *)
Definition selectChat
    (getChatById : string -> outcome Chat)
    (getChatsByUser : string -> outcome (list Chat))
    (user : User) (chatID : option string) (st : State)
  : State * list Action :=
  let '(_, st1, actions) := handleChatSelect getChatById chatID st in
  match Js.whenTruthy chatID with
  | Some id =>
      match getChatById id with
      | Resolved _ =>
          let '(st2, rendered) := rerender getChatsByUser user st st1 in
          (st2, actions ++ rendered)
      | Rejected _ => (st1, actions)
      end
  | None => (st1, actions)
  end.

End DirectMessage.

(** ** The client: the game-page hook *)

Module GamePage.

(** [gameState.state] *)
Record GameStatus := mkGameStatus {
  status : string;
}.

Record GameInstance := mkGameInstance {
  gameID : string;
  state : GameStatus;
  players : list string;
}.

Record State := mkState {
  gameState : option GameInstance;
  joinedGameID : option string;
  error : option string;
}.

Definition setGameState (g : option GameInstance) (st : State) : State :=
  mkState g (joinedGameID st) (error st).

Definition setJoinedGameID (id : option string) (st : State) : State :=
  mkState (gameState st) id (error st).

Definition setError (e : option string) (st : State) : State :=
  mkState (gameState st) (joinedGameID st) e.

Inductive Effect :=
| ApiLeaveGame (gameID playerID : string)
| SocketEmit (event : string) (arg : string)
| Navigate (path : string).

(** [handleLeaveGame]; [leaveGame] is the service call with the server's
    answer, [socket] tells whether the context holds a socket, [userId] is
    [user._id]. *)
Definition handleLeaveGame
    (leaveGame : string -> string -> outcome GameInstance)
    (socket : bool) (userId : option string) (st : State)
  : State * list Effect :=
  let attempt :=
    match Js.whenTruthy (joinedGameID st), gameState st with
    | Some joined, Some game =>
        if negb (String.eqb (status (state game)) "OVER") then
          let playerID := match userId with Some u => u | None => ""%string end in
          match leaveGame joined playerID with
          | Resolved _ =>
              (st, ApiLeaveGame joined playerID
                   :: (if socket then [SocketEmit "leaveGame" joined] else []))
          | Rejected _ =>
              (setError (Some "Failed to leave the game."%string) st,
               [ApiLeaveGame joined playerID])
          end
        else (st, [])
    | _, _ => (st, [])
    end in
  (setError None (setJoinedGameID None (setGameState None attempt.1)),
   attempt.2 ++ [Navigate "/games"]).

(** *** The effect of the hook: joining, and the two socket listeners *)

Inductive JoinAction :=
| ApiJoinGame (gameID playerID : string)
| JoinEmitted (event : string) (arg : string).

(** [handleJoinGame] *)
Definition handleJoinGame
    (joinGame : string -> string -> outcome GameInstance)
    (socket : bool) (userId : option string) (id : string) (st : State)
  : State * list JoinAction :=
  let playerID := match userId with Some u => u | None => ""%string end in
  match joinGame id playerID with
  | Resolved game =>
      (setError None (setJoinedGameID (Some id) (setGameState (Some game) st)),
       ApiJoinGame id playerID
       :: (if socket then [JoinEmitted "joinGame" id] else []))
  | Rejected _ =>
      (setJoinedGameID None
         (setGameState None (setError (Some "Failed to join the game."%string) st)),
       [ApiJoinGame id playerID])
  end.

(** The effect body: [if (gameID) handleJoinGame(gameID)]; [gameID] is the
    route parameter. *)
Definition joinOnMount
    (joinGame : string -> string -> outcome GameInstance)
    (socket : bool) (userId : option string) (gameID : option string) (st : State)
  : State * list JoinAction :=
  match Js.whenTruthy gameID with
  | Some id => handleJoinGame joinGame socket userId id st
  | None => (st, [])
  end.

(** [handleGameUpdate]; the argument is [updatedState.gameState]. *)
Definition handleGameUpdate (updated : GameInstance) (st : State) : State :=
  setGameState (Some updated) st.

(** [handleGameError]; the arguments are [gameError.player] and
    [gameError.error]. *)
Definition handleGameError
    (player : string) (gameError : string) (userId : option string) (st : State)
  : State :=
  if Js.strictEq (Some player) userId then setError (Some gameError) st else st.

End GamePage.

(** ** The client: the authentication hook *)

Module Auth.

(** ['login' | 'signup'] *)
Inductive AuthType :=
| Login
| Signup.

(** ['username' | 'password' | 'confirmPassword'] *)
Inductive Field :=
| UsernameField
| PasswordField
| ConfirmPasswordField.

Record State := mkState {
  username : string;
  password : string;
  passwordConfirmation : string;
  showPassword : bool;
  err : string;
}.

Definition setUsername (v : string) (st : State) : State :=
  mkState v (password st) (passwordConfirmation st) (showPassword st) (err st).

Definition setPassword (v : string) (st : State) : State :=
  mkState (username st) v (passwordConfirmation st) (showPassword st) (err st).

Definition setPasswordConfirmation (v : string) (st : State) : State :=
  mkState (username st) (password st) v (showPassword st) (err st).

Definition setShowPassword (f : bool -> bool) (st : State) : State :=
  mkState (username st) (password st) (passwordConfirmation st)
    (f (showPassword st)) (err st).

Definition setErr (v : string) (st : State) : State :=
  mkState (username st) (password st) (passwordConfirmation st) (showPassword st) v.

(** The argument of [loginUser] and [createUser]. *)
Record Credentials := mkCredentials {
  cred_username : string;
  cred_password : string;
}.

Inductive Action :=
| PreventDefault
| ApiLoginUser (c : Credentials)
| ApiCreateUser (c : Credentials)
| SetUser (user : DirectMessage.User)
| Navigate (path : string)
| ConsoleLog (text : string).

Definition togglePasswordVisibility (st : State) : State :=
  setShowPassword negb st.

(** [handleInputChange]; [value] is [e.target.value]. *)
Definition handleInputChange (value : string) (field : Field) (st : State) : State :=
  match field with
  | UsernameField => setUsername value st
  | PasswordField => setPassword value st
  | ConfirmPasswordField => setPasswordConfirmation value st
  end.

(** [validateInputs]: the verdict, and the state with the error it set. *)
Definition validateInputs (authType : AuthType) (st : State) : bool * State :=
  if negb (Js.truthyStr (Js.trim (username st)))
  then (false, setErr "Username is required" st)
  else if negb (Js.truthyStr (Js.trim (password st)))
  then (false, setErr "Password is required" st)
  else
    match authType with
    | Signup =>
        if negb (Js.truthyStr (Js.trim (passwordConfirmation st)))
        then (false, setErr "Password confirmation is required" st)
        else if negb (String.eqb (password st) (passwordConfirmation st))
        then (false, setErr "Passwords do not match" st)
        else (true, st)
    | Login => (true, st)
    end.

(** [handleSubmit] *)
Definition handleSubmit
    (loginUser createUser : Credentials -> outcome DirectMessage.User)
    (authType : AuthType) (st : State)
  : State * list Action :=
  match validateInputs authType st with
  | (false, st1) => (st1, [PreventDefault])
  | (true, st1) =>
      let credentials := mkCredentials (username st) (password st) in
      match authType with
      | Login =>
          match loginUser credentials with
          | Resolved user =>
              (st1, [PreventDefault; ApiLoginUser credentials; SetUser user;
                     Navigate "/home"])
          | Rejected _ =>
              (st1, [PreventDefault; ApiLoginUser credentials;
                     ConsoleLog "Login failed. Please try again."])
          end
      | Signup =>
          match createUser credentials with
          | Resolved user =>
              (st1, [PreventDefault; ApiCreateUser credentials; SetUser user;
                     Navigate "/home"])
          | Rejected _ =>
              (st1, [PreventDefault; ApiCreateUser credentials;
                     ConsoleLog "Signup failed. Please try again."])
          end
      end
  end.

End Auth.

(** ** The client: the profile-settings hook *)

Module ProfileSettings.

(** What [setPendingAction] stores: the closure that deletes the user it
    has captured. *)
Inductive Pending :=
| DeleteUser (username : string).

Record State := mkState {
  userData : option DirectMessage.User;
  newPassword : string;
  confirmNewPassword : string;
  loading : bool;
  editBioMode : bool;
  newBio : string;
  successMessage : option string;
  errorMessage : option string;
  showConfirmation : bool;
  pendingAction : option Pending;
  showPassword : bool;
}.

Definition setUserData (v : option DirectMessage.User) (st : State) : State :=
  mkState v (newPassword st) (confirmNewPassword st) (loading st) (editBioMode st)
    (newBio st) (successMessage st) (errorMessage st) (showConfirmation st)
    (pendingAction st) (showPassword st).

Definition setNewPassword (v : string) (st : State) : State :=
  mkState (userData st) v (confirmNewPassword st) (loading st) (editBioMode st)
    (newBio st) (successMessage st) (errorMessage st) (showConfirmation st)
    (pendingAction st) (showPassword st).

Definition setConfirmNewPassword (v : string) (st : State) : State :=
  mkState (userData st) (newPassword st) v (loading st) (editBioMode st)
    (newBio st) (successMessage st) (errorMessage st) (showConfirmation st)
    (pendingAction st) (showPassword st).

Definition setLoading (v : bool) (st : State) : State :=
  mkState (userData st) (newPassword st) (confirmNewPassword st) v (editBioMode st)
    (newBio st) (successMessage st) (errorMessage st) (showConfirmation st)
    (pendingAction st) (showPassword st).

Definition setEditBioMode (v : bool) (st : State) : State :=
  mkState (userData st) (newPassword st) (confirmNewPassword st) (loading st) v
    (newBio st) (successMessage st) (errorMessage st) (showConfirmation st)
    (pendingAction st) (showPassword st).

Definition setSuccessMessage (v : option string) (st : State) : State :=
  mkState (userData st) (newPassword st) (confirmNewPassword st) (loading st)
    (editBioMode st) (newBio st) v (errorMessage st) (showConfirmation st)
    (pendingAction st) (showPassword st).

Definition setErrorMessage (v : option string) (st : State) : State :=
  mkState (userData st) (newPassword st) (confirmNewPassword st) (loading st)
    (editBioMode st) (newBio st) (successMessage st) v (showConfirmation st)
    (pendingAction st) (showPassword st).

Definition setShowConfirmation (v : bool) (st : State) : State :=
  mkState (userData st) (newPassword st) (confirmNewPassword st) (loading st)
    (editBioMode st) (newBio st) (successMessage st) (errorMessage st) v
    (pendingAction st) (showPassword st).

Definition setPendingAction (v : option Pending) (st : State) : State :=
  mkState (userData st) (newPassword st) (confirmNewPassword st) (loading st)
    (editBioMode st) (newBio st) (successMessage st) (errorMessage st)
    (showConfirmation st) v (showPassword st).

Definition setShowPassword (f : bool -> bool) (st : State) : State :=
  mkState (userData st) (newPassword st) (confirmNewPassword st) (loading st)
    (editBioMode st) (newBio st) (successMessage st) (errorMessage st)
    (showConfirmation st) (pendingAction st) (f (showPassword st)).

Inductive Action :=
| ApiGetUserByUsername (username : string)
| ApiResetPassword (username newPassword : string)
| ApiUpdateBiography (username newBio : string)
| ApiDeleteUser (username : string)
| Navigate (path : string).

(** [(error as Error)?.message || fallback] *)
Definition messageOrElse (fallback : string) (e : thrown) : string :=
  match e with
  | Error m => if Js.truthyStr m then m else fallback
  | NonError _ => fallback
  end.

(** [!!currentUser && currentUser.username === username] *)
Definition canEditProfile
    (currentUser : option DirectMessage.User) (username : option string) : bool :=
  match currentUser with
  | Some u => Js.strictEq (Some (DirectMessage.username u)) username
  | None => false
  end.

(** [fetchUserData], run by the effect when [username] is set. *)
Definition fetchUserData
    (getUserByUsername : string -> outcome DirectMessage.User)
    (username : option string) (st : State)
  : State * list Action :=
  match Js.whenTruthy username with
  | None => (st, [])
  | Some name =>
      match getUserByUsername name with
      | Resolved data =>
          (setLoading false (setUserData (Some data) (setLoading true st)),
           [ApiGetUserByUsername name])
      | Rejected _ =>
          (setLoading false
             (setUserData None
                (setErrorMessage (Some "Error fetching user profile"%string)
                   (setLoading true st))),
           [ApiGetUserByUsername name])
      end
  end.

Definition togglePasswordVisibility (st : State) : State :=
  setShowPassword negb st.

(** [validatePasswords], as a truth value. *)
Definition validatePasswords (st : State) : bool :=
  Js.truthyStr (newPassword st)
  && Js.truthyStr (confirmNewPassword st)
  && String.eqb (newPassword st) (confirmNewPassword st).

(** [handleResetPassword] *)
Definition handleResetPassword
    (resetPassword : string -> string -> outcome DirectMessage.User)
    (username : option string) (st : State)
  : State * list Action :=
  match Js.whenTruthy username with
  | None => (st, [])
  | Some name =>
      let st1 := setSuccessMessage None (setErrorMessage None st) in
      if negb (Js.truthyStr (newPassword st)) || negb (Js.truthyStr (confirmNewPassword st))
      then (setErrorMessage (Some "Please fill in both password fields."%string) st1, [])
      else if negb (String.eqb (newPassword st) (confirmNewPassword st))
      then (setErrorMessage (Some "Passwords do not match."%string) st1, [])
      else
        match resetPassword name (newPassword st) with
        | Resolved _ =>
            (setLoading false
               (setConfirmNewPassword ""
                  (setNewPassword ""
                     (setSuccessMessage (Some "Password reset successfully."%string)
                        (setLoading true st1)))),
             [ApiResetPassword name (newPassword st)])
        | Rejected e =>
            (setLoading false
               (setErrorMessage (Some (messageOrElse "Failed to reset password." e))
                  (setLoading true st1)),
             [ApiResetPassword name (newPassword st)])
        end
  end.

(** [handleUpdateBiography] *)
Definition handleUpdateBiography
    (updateBiography : string -> string -> outcome DirectMessage.User)
    (username : option string) (st : State)
  : State * list Action :=
  match Js.whenTruthy username with
  | None => (st, [])
  | Some name =>
      let st1 := setSuccessMessage None (setErrorMessage None st) in
      match updateBiography name (newBio st) with
      | Resolved updatedUser =>
          (setLoading false
             (setEditBioMode false
                (setSuccessMessage (Some "Biography updated successfully."%string)
                   (setUserData (Some updatedUser) (setLoading true st1)))),
           [ApiUpdateBiography name (newBio st)])
      | Rejected e =>
          (setLoading false
             (setErrorMessage (Some (messageOrElse "Failed to update biography." e))
                (setLoading true st1)),
           [ApiUpdateBiography name (newBio st)])
      end
  end.

(** [handleDeleteUser]: it only arms the confirmation. *)
Definition handleDeleteUser (username : option string) (st : State) : State :=
  match Js.whenTruthy username with
  | None => st
  | Some name =>
      setPendingAction (Some (DeleteUser name))
        (setShowConfirmation true
           (setSuccessMessage None (setErrorMessage None st)))
  end.

(** Running the stored action, which the confirmation dialog does. *)
Definition runPending
    (deleteUser : string -> outcome DirectMessage.User)
    (p : Pending) (st : State)
  : State * list Action :=
  match p with
  | DeleteUser name =>
      match deleteUser name with
      | Resolved _ =>
          (setShowConfirmation false
             (setSuccessMessage (Some "User deleted successfully."%string)
                (setLoading true st)),
           [ApiDeleteUser name; Navigate "/"])
      | Rejected e =>
          (setShowConfirmation false
             (setErrorMessage (Some (messageOrElse "Failed to delete user." e))
                (setLoading true st)),
           [ApiDeleteUser name])
      end
  end.

End ProfileSettings.

(** ** Vocabulary of the statements about the hooks *)

Module HookSpec.

(** White space, as the statements mean it: the characters TAB, LF, VT, FF,
    CR, SPACE and NBSP, given by their codes. *)
Definition whiteSpaceCodes : list nat := [9; 10; 11; 12; 13; 32; 160].

Definition isSpace (c : ascii) : bool :=
  existsb (Nat.eqb (nat_of_ascii c)) whiteSpaceCodes.

(** A text is blank when it holds nothing but white space. *)
Fixpoint blank (s : string) : bool :=
  match s with
  | EmptyString => true
  | String c rest => isSpace c && blank rest
  end.

Definition firstChar (s : string) : option ascii :=
  match s with
  | EmptyString => None
  | String c _ => Some c
  end.

Fixpoint lastChar (s : string) : option ascii :=
  match s with
  | EmptyString => None
  | String c EmptyString => Some c
  | String _ rest => lastChar rest
  end.

Definition spaceAt (edge : option ascii) : bool :=
  match edge with
  | Some c => isSpace c
  | None => false
  end.

(** [text] is [draft] without the white space at its two ends: the draft is
    white space, then the text, then white space, and the text neither
    starts nor ends with white space. *)
Definition trimmedOf (draft text : string) : Prop :=
  exists leading trailing,
    draft = (leading ++ text ++ trailing)%string
    /\ blank leading = true
    /\ blank trailing = true
    /\ spaceAt (firstChar text) = false
    /\ spaceAt (lastChar text) = false.

(** An identifier that is there and not empty. *)
Definition hasId (o : option string) : bool :=
  match o with
  | Some i => negb (String.eqb i "")
  | None => false
  end.

(** The draft is not blank, a chat is selected, and the selected chat and
    the user both have an identifier. *)
Definition canSend (user : DirectMessage.User) (st : DirectMessage.State) : bool :=
  negb (blank (DirectMessage.newMessage st))
  && match DirectMessage.selectedChat st with
     | Some selected => hasId (DirectMessage.chat_id selected)
     | None => false
     end
  && hasId (DirectMessage.user_id user).

(** A name to chat with is typed in, and the user has an identifier. *)
Definition canCreate (user : DirectMessage.User) (st : DirectMessage.State) : bool :=
  negb (blank (DirectMessage.chatToCreate st))
  && hasId (DirectMessage.user_id user).

(** The identifier of the chat that is open, when it has one. *)
Definition openChat (st : DirectMessage.State) : option string :=
  match DirectMessage.selectedChat st with
  | Some selected =>
      match DirectMessage.chat_id selected with
      | Some i => if String.eqb i "" then None else Some i
      | None => None
      end
  | None => None
  end.

(** The message added last to a chat: [addMessageToChat] pushes at the end
    of the message list. *)
Definition newlyAdded (c : DirectMessage.Chat) : option DirectMessage.Message :=
  List.last (DirectMessage.messages c) None.

(** The joined game that is not over yet, if there is one. *)
Definition activeGame (st : GamePage.State) : option string :=
  match Js.whenTruthy (GamePage.joinedGameID st), GamePage.gameState st with
  | Some joined, Some game =>
      if String.eqb (GamePage.status (GamePage.state game)) "OVER" then None
      else Some joined
  | _, _ => None
  end.

Definition isResolved {A} (r : outcome A) : bool :=
  match r with Resolved _ => true | Rejected _ => false end.

End HookSpec.

(** ** Vocabulary of the statements *)

Module Spec.
Import Server.

(** No driver call is going to fail. *)
Definition faultFree (w : World) : bool :=
  forallb (fun f => match f with None => true | Some _ => false end) (faults w).

(** [payload.messages], with no messages when the field is absent. *)
Definition payloadMessages (p : CreateChatPayload) : list Message :=
  match p_messages p with Some ms => ms | None => [] end.

(** [s] is [m] as the message store holds it: the same content, with an
    identifier, which is the payload's own when it had one. *)
Definition storedAs (m s : Message) : Prop :=
  msg s = msg m /\ msgFrom s = msgFrom m /\ msgDateTime s = msgDateTime m
  /\ msgType s = msgType m
  /\ msg_id s = Some (idToString s)
  /\ (forall i, msg_id m = Some i -> msg_id s = Some i).

(** The socket emissions of a run, and its responses. *)
Definition emissions (t : list Event) : list (Target * string) :=
  omap (fun ev => match ev with Emit to name _ => Some (to, name) | _ => None end) t.

Definition responses (t : list Event) : list (nat * Body) :=
  omap (fun ev => match ev with Respond code b => Some (code, b) | _ => None end) t.

Definition isJson (b : Body) : bool :=
  match b with Json _ => true | Text _ => false end.

(** The routes that check their request with a validator. *)
Inductive MutationRequest :=
| CreateChat (req : CreateChatRequest)
| AddMessage (req : AddMessageRequestToChat)
| AddParticipant (req : AddParticipantRequest).


Definition mutationRoute `{Externals} (r : MutationRequest) : M unit :=
  match r with
  | CreateChat req => createChatRoute req
  | AddMessage req => addMessageToChatRoute req
  | AddParticipant req => addParticipantToChatRoute req
  end.

(** The message [addMessageToChatRoute] hands to [createMessage]. *)
Definition messageOf (req : AddMessageRequestToChat) (w : World) : Message :=
  match am_body req with
  | Some b =>
      mkMessage None (Js.asString (body_msg b)) (Js.asString (body_msgFrom b))
        (match body_msgDateTime b with Some d => d | None => clock w end)
        (Some (match body_type b with Some t => t | None => "direct"%string end))
  | None => mkMessage None "" "" (clock w) None
  end.

(** [req.params.chatId] and [req.body.participantId] of a valid request. *)
Definition chatIdOf (req : AddParticipantRequest) : string :=
  match ap_params req with
  | Some params => Js.asString (param_chatId params)
  | None => ""
  end.



(** Every route the controller registers. *)
Inductive Request :=
| Mutation (r : MutationRequest)
| GetChat (req : ChatIdRequest)
| GetChatsByUser (req : GetChatByParticipantsRequest).

Definition route `{Externals} (r : Request) : M unit :=
  match r with
  | Mutation m => mutationRoute m
  | GetChat req => getChatRoute req
  | GetChatsByUser req => getChatsByUserRoute req
  end.

(** A ['chatUpdate'] emission is room-scoped when it goes to one room. *)
Definition roomScoped (t : list Event) : Prop :=
  forall to payload, In (Emit to "chatUpdate" payload) t -> exists room, to = Room room.

(** How [Promise.all] settles, given how its promises settle. *)
Fixpoint allSettled {A} (rs : list (outcome A)) : outcome (list A) :=
  match rs with
  | [] => Resolved []
  | r :: rest =>
      match r, allSettled rest with
      | Rejected e, _ => Rejected e
      | Resolved _, Rejected e => Rejected e
      | Resolved a, Resolved l => Resolved (a :: l)
      end
  end.

(** How the callback of [getChatsByUserRoute] settles for one chat. *)
Definition populateOneSettles `{Externals} (w : World) (chat : Chat)
  : outcome (option PopulatedChat) :=
  match populateDocument (chat_id chat) "chat" w with
  | Resolved (PopulateError _) => Rejected (Error "Failed populating chats")
  | Resolved p => Resolved (populatedValue p)
  | Rejected e => Rejected e
  end.

(** The last event of a retrieval by username. *)
Definition byUserResponse (settled : outcome (list (option PopulatedChat))) : Event :=
  match settled with
  | Resolved docs => Respond 200 (Json (PopulatedListJson docs))
  | Rejected e => Respond 500 (Text ("Error retrieving chat: " ++ Js.messageOrString e))
  end.

(** What the lookup [{ participants: { $all: p } }] yields to the service:
    nothing when the driver fails. *)
Definition lookup (p : list string) (w : World) : list Chat :=
  match nextFault w with
  | Some _ => []
  | None => List.filter (matchesAll p) (chatsColl w)
  end.

(** Where a route sends its ['chatUpdate'], if it sends one. *)
Definition emitTarget (r : Request) : option Target :=
  match r with
  | Mutation (CreateChat _) => Some AllClients
  | Mutation (AddMessage req) => Some (Room (am_chatId req))
  | Mutation (AddParticipant req) => Some (Room (chatIdOf req))
  | GetChat _ | GetChatsByUser _ => None
  end.

(** The run answered 200. *)
Definition succeeded (t : list Event) : bool :=
  existsb (fun r => (r.1 =? 200)%nat) (responses t).

Definition isRejected {A} (r : outcome A) : bool :=
  match r with Rejected _ => true | Resolved _ => false end.

End Spec.

(** ** Vocabulary of the further statements *)

Module Obs.
Import Server.

(** The chat the collection holds under an identifier: the first one with
    it, as [findById] and [findByIdAndUpdate] pick it. *)
Definition findChat (chatId : string) (w : World) : option Chat :=
  List.find (fun c => String.eqb (chat_id c) chatId) (chatsColl w).

(** Two worlds hold the same documents. *)
Definition sameStore (w1 w2 : World) : Prop :=
  messagesColl w1 = messagesColl w2 /\ chatsColl w1 = chatsColl w2.

(** A chat with one more message identifier at the end. *)
Definition withMessage (messageId : string) (c : Chat) : Chat :=
  mkChat (chat_id c) (participants c) (messages c ++ [messageId]).

(** A chat with one more participant at the end. *)
Definition withParticipant (userId : string) (c : Chat) : Chat :=
  mkChat (chat_id c) (participants c ++ [userId]) (messages c).

(** [c1] is [c] with, possibly, more participants and more messages at
    the end. *)
Definition extends (c c1 : Chat) : Prop :=
  chat_id c1 = chat_id c
  /\ (exists ps, participants c1 = participants c ++ ps)
  /\ (exists ms, messages c1 = messages c ++ ms).

(** [w1] holds everything [w] holds, in the same order: the messages of [w]
    followed by new ones, and the chats of [w], each possibly extended,
    followed by new ones. *)
Definition grows (w w1 : World) : Prop :=
  (exists added, messagesColl w1 = messagesColl w ++ added)
  /\ (exists kept added,
        chatsColl w1 = kept ++ added /\ Forall2 extends (chatsColl w) kept).

(** Every run of [m] takes a world to one related to it by [R]. *)
Definition preserves (R : World -> World -> Prop) {A} (m : M A) : Prop :=
  forall w, R w (after m w).

(** What the server's connection handler makes of what a hook sent on the
    socket. *)
Definition deliver (a : DirectMessage.Action) (rooms : gset string) : gset string :=
  match a with
  | DirectMessage.Emitted event arg => receive event (Some arg) rooms
  | _ => rooms
  end.

(** Exactly one of the two messages of the profile page is shown, and a
    shown error is not empty. *)
Definition oneMessage (st : ProfileSettings.State) : Prop :=
  (ProfileSettings.successMessage st = None
   /\ exists m, ProfileSettings.errorMessage st = Some m /\ m <> ""%string)
  \/ (ProfileSettings.errorMessage st = None
      /\ exists m, ProfileSettings.successMessage st = Some m).

Definition deliverAll (actions : list DirectMessage.Action) (rooms : gset string)
  : gset string :=
  fold_left (fun acc a => deliver a acc) actions rooms.

End Obs.

(** ** Sample data *)

Module Sample.
Import Server.

Definition objectId (n : nat) : string := ("oid" ++ pretty n)%string.

(** A [populateDocument] that always settles the same way, a database
    that has written one document when an [insertMany] fails, and a schema
    that stores the text [?] for a participant that is not a string. *)
Definition externals (answer : outcome populated) : Externals :=
  {| newObjectId := objectId;
     populateDocument := fun _ _ _ => answer;
     insertedBeforeFailure := fun _ _ => 1;
     castParticipant := fun _ => "?"%string;
     firstRejection := fun _ _ => 0 |}.

Definition populatedChat : PopulatedChat :=
  mkPopulatedChat "oid0" ["alice"; "bob"]%string [].

Definition found : Externals := externals (Resolved (Populated populatedChat)).

Definition failing : Externals := externals (Resolved (PopulateError "no such chat")).

Definition emptyWorld : World := mkWorld [] [] 0 0 [].

Definition aliceAndBob : Chat := mkChat "c1" ["alice"; "bob"]%string ["m1"%string].

Definition oneChat : World := mkWorld [] [aliceAndBob] 7 0 [].

Definition helloRequest : AddMessageRequestToChat :=
  mkAddMessageRequest "c1"
    (Some (mkAddMessageBody (Js.Str "hello") (Js.Str "alice") None None)).

Definition createRequest : CreateChatRequest :=
  mkCreateChatRequest
    (Some (mkCreateChatBody (Js.Array [Js.Str "alice"; Js.Str "bob"]) None)).

Definition hello : Message := mkMessage None "hello" "alice" 5 None.

Definition greeting : CreateChatPayload :=
  mkCreateChatPayload ["alice"; "bob"]%string (Some [hello]).

(** The hooks. *)

Definition alice : DirectMessage.User := DirectMessage.mkUser (Some "u1"%string) "alice".

Definition first : DirectMessage.Message :=
  DirectMessage.mkMessage (Some "m1"%string) "hi" "bob" 1 (Some "direct"%string) None.

Definition second : DirectMessage.Message :=
  DirectMessage.mkMessage (Some "m2"%string) "how are you" "bob" 2 (Some "direct"%string) None.

Definition opened : DirectMessage.Chat :=
  DirectMessage.mkChat (Some "c1"%string) ["alice"; "bob"]%string [Some first].

Definition drafting : DirectMessage.State :=
  DirectMessage.mkState false "" (Some opened) [opened] "  see you  ".

(** The update the server sends after [second] was added to the chat. *)
Definition secondArrives : DirectMessage.ChatUpdatePayload :=
  DirectMessage.mkChatUpdatePayload
    (DirectMessage.mkChat (Some "c1"%string) ["alice"; "bob"]%string [Some first; Some second])
    "newMessage".

Definition echo (p : DirectMessage.MessagePayload) (chatID : string)
  : outcome DirectMessage.Message :=
  Resolved (DirectMessage.mkMessage (Some "m9"%string) (DirectMessage.mp_msg p)
              (DirectMessage.mp_msgFrom p) (DirectMessage.mp_msgDateTime p)
              (Some "direct"%string) None).

Definition playing : GamePage.State :=
  GamePage.mkState
    (Some (GamePage.mkGameInstance "g1" (GamePage.mkGameStatus "IN_PROGRESS") ["u1"%string]))
    (Some "g1"%string) None.

Definition unreachable (gameID playerID : string) : outcome GamePage.GameInstance :=
  Rejected (Error "Network Error").

(** The chat [saveChat] makes of [greeting] on the empty world. *)
Definition greetingChat : Chat := mkChat "oid1" ["alice"; "bob"]%string ["oid0"%string].

Definition fetchOpened (chatID : string) : outcome DirectMessage.Chat :=
  Resolved opened.

Definition loginForm : Auth.State := Auth.mkState "alice" "secret" "" false "".

Definition welcome (c : Auth.Credentials) : outcome DirectMessage.User :=
  Resolved alice.

Definition passwordForm : ProfileSettings.State :=
  ProfileSettings.mkState (Some alice) "secret" "secret" false false "" None None
    false None false.

Definition accepted (username text : string) : outcome DirectMessage.User :=
  Resolved alice.

End Sample.

(** ** Properties *)

Import Server Spec.

(** The model runs: a few concrete evaluations. *)

Example trim_draft : Js.trim "  see you  " = "see you"%string.
Proof. reflexivity. Qed.

Example trim_blank : Js.trim "   " = ""%string.
Proof. reflexivity. Qed.

Example blank_drafts :
  HookSpec.blank "   " = true /\ HookSpec.blank "  see you  " = false.
Proof. split; reflexivity. Qed.

(** An [insertMany] of two messages that fails after the first one: the
    chat is not created, the first message stays. *)
Example saveChat_interrupted :
  saveChat (H := Sample.found)
    (mkCreateChatPayload ["alice"; "bob"]%string (Some [Sample.hello; Sample.hello]))
    (withFaults [Some (Error "connection lost")] Sample.emptyWorld)
  = (Resolved (Failure "connection lost"),
     mkWorld [mkMessage (Some "oid0"%string) "hello" "alice" 5 None] [] 1 0 [],
     [Db (CallSaveChat
            (mkCreateChatPayload ["alice"; "bob"]%string
               (Some [Sample.hello; Sample.hello])))]).
Proof. reflexivity. Qed.

Example createChatRoute_example :
  trace (createChatRoute (H := Sample.found) Sample.createRequest) Sample.emptyWorld
  = [Db (CallSaveChat (mkCreateChatPayload ["alice"; "bob"]%string None));
     Db (CallPopulateDocument "oid0" "chat");
     Emit AllClients "chatUpdate" (Some Sample.populatedChat);
     Respond 200 (Json (PopulatedJson (Some Sample.populatedChat)))].
Proof. reflexivity. Qed.

Example addMessageToChatRoute_example :
  trace (addMessageToChatRoute (H := Sample.found) Sample.helloRequest) Sample.oneChat
  = [Db (CallCreateMessage (mkMessage None "hello" "alice" 0 (Some "direct"%string)));
     Db (CallAddMessageToChat "c1" "oid7");
     Db (CallPopulateDocument "c1" "chat");
     Emit (Room "c1") "chatUpdate" (Some Sample.populatedChat);
     Respond 200 (Json (PopulatedJson (Some Sample.populatedChat)))]
  /\ chatsColl (after (addMessageToChatRoute (H := Sample.found) Sample.helloRequest)
                      Sample.oneChat)
     = [mkChat "c1" ["alice"; "bob"]%string ["m1"; "oid7"]%string].
Proof. split; reflexivity. Qed.

Example addMessageToChatRoute_database_down :
  trace (addMessageToChatRoute (H := Sample.found) Sample.helloRequest)
        (withFaults [Some (Error "connection lost")] Sample.oneChat)
  = [Db (CallCreateMessage (mkMessage None "hello" "alice" 0 (Some "direct"%string)));
     Respond 500 (Json (ErrorObject "connection lost"))].
Proof. reflexivity. Qed.

Example handleSendMessage_example :
  DirectMessage.handleSendMessage Sample.echo 9 Sample.alice Sample.drafting
  = (Resolved tt,
     DirectMessage.mkState false ""
       (Some (DirectMessage.mkChat (Some "c1"%string) ["alice"; "bob"]%string
                [Some Sample.first;
                 Some (DirectMessage.mkMessage (Some "m9"%string) "see you" "u1" 9
                         (Some "direct"%string)
                         (Some (DirectMessage.mkMessageUser (Some "u1"%string) "alice")))]))
       [Sample.opened] "",
     [DirectMessage.ApiSendMessage
        (DirectMessage.mkMessagePayload "c1" "u1" "see you" 9) "c1"]).
Proof. reflexivity. Qed.

Ltac run :=
  unfold mbind, mret, M_bind, M_ret, bind, ret, tryCatch, tell, throw,
    readWorld, newDate, driver in *; simpl in *.

Section ServiceFacts.
Context `{Externals}.

Lemma populate_run (id kind : string) (w : World) :
  populate id kind w
  = (populateDocument id kind w, w, [Db (CallPopulateDocument id kind)]).
Proof. reflexivity. Qed.

(** The services absorb every failure of the driver: they resolve, and the
    only event of a run is the call itself. *)
Lemma saveChat_run (p : CreateChatPayload) (w : World) :
  exists r w1, saveChat p w = (Resolved r, w1, [Db (CallSaveChat p)]).
Proof.
  unfold saveChat, MessageModel_insertMany, ChatModel_save.
  destruct (p_messages p) as [[|m ms]|]; run.
  all: destruct (nextFault w); run; eauto.
  all: destruct (nextFault _); run; eauto.
Qed.

Lemma createMessage_run (m : Message) (w : World) :
  exists r w1, createMessage m w = (Resolved r, w1, [Db (CallCreateMessage m)]).
Proof.
  unfold createMessage, MessageModel_save; run.
  destruct (nextFault w); run; eauto.
Qed.

Lemma addMessageToChat_run (chatId messageId : string) (w : World) :
  exists r w1, addMessageToChat chatId messageId w
               = (Resolved r, w1, [Db (CallAddMessageToChat chatId messageId)]).
Proof.
  unfold addMessageToChat, ChatModel_findByIdAndUpdate; run.
  destruct (nextFault w); run; eauto.
  destruct (updateById _ _ _) as [[c|] cs]; run; eauto.
Qed.

Lemma getChat_run (chatId : string) (w : World) :
  exists r w1, getChat chatId w = (Resolved r, w1, [Db (CallGetChat chatId)]).
Proof.
  unfold getChat, ChatModel_findById; run.
  destruct (nextFault w); run; eauto.
  destruct (List.find _ _); run; eauto.
Qed.

Lemma addParticipantToChat_run (chatId userId : string) (w : World) :
  exists r w1, addParticipantToChat chatId userId w
               = (Resolved r, w1, [Db (CallAddParticipantToChat chatId userId)]).
Proof.
  unfold addParticipantToChat, ChatModel_findByIdAndUpdate; run.
  destruct (nextFault w); run; eauto.
  destruct (updateById _ _ _) as [[c|] cs]; run; eauto.
Qed.

Lemma getChatsByParticipants_run (p : list string) (w : World) :
  getChatsByParticipants p w
  = (Resolved (lookup p w), consumeFault w, [Db (CallGetChatsByParticipants p)]).
Proof.
  unfold getChatsByParticipants, ChatModel_find, lookup; run.
  destruct (nextFault w); run; [reflexivity|].
  assert (E : chatsColl (consumeFault w) = chatsColl w).
  { unfold consumeFault. now destruct (faults w). }
  rewrite E.
  now destruct (List.filter _ _).
Qed.

End ServiceFacts.

(** One step of a route: a service call, [populateDocument], or a test on
    what they returned. *)
Ltac step :=
  match goal with
  | |- context [saveChat ?p ?w] =>
      let E := fresh in destruct (saveChat_run p w) as (? & ? & E); rewrite E; clear E
  | |- context [createMessage ?m ?w] =>
      let E := fresh in destruct (createMessage_run m w) as (? & ? & E); rewrite E; clear E
  | |- context [addMessageToChat ?c ?m ?w] =>
      let E := fresh in destruct (addMessageToChat_run c m w) as (? & ? & E); rewrite E; clear E
  | |- context [getChat ?c ?w] =>
      let E := fresh in destruct (getChat_run c w) as (? & ? & E); rewrite E; clear E
  | |- context [addParticipantToChat ?c ?u ?w] =>
      let E := fresh in destruct (addParticipantToChat_run c u w) as (? & ? & E); rewrite E; clear E
  | |- context [populateDocument ?a ?b ?w] =>
      destruct (populateDocument a b w) as [[?|?|]|?]
  | |- context [match ?r with Doc _ => _ | Failure _ => _ end] => destruct r
  | |- context [if negb (Js.truthyOpt ?o) then _ else _] => destruct (Js.truthyOpt o)
  end; simpl.

Ltac answered :=
  split; [reflexivity | do 2 eexists; repeat split; reflexivity].

Ltac route := unfold mbind, mret, M_bind, M_ret, bind, ret; simpl; repeat step.

(** ** Validation comes first *)

Section Validation.
Context `{Externals}.








End Validation.

(** ** Retrieval by username *)

Section ByUser.
Context `{Externals}.

Lemma populateOne_run (chat : Chat) (w : World) :
  populateOne chat w
  = (populateOneSettles w chat, w, [Db (CallPopulateDocument (chat_id chat) "chat")]).
Proof.
  unfold populateOne, populateOneSettles, mbind, M_bind, bind.
  rewrite populate_run.
  now destruct (populateDocument _ _ _) as [[d|e|]|e].
Qed.

Lemma startAll_populate (chats : list Chat) (w : World) :
  startAll (map populateOne chats) w
  = (map (populateOneSettles w) chats, w,
     map (fun c => Db (CallPopulateDocument (chat_id c) "chat")) chats).
Proof.
  induction chats as [|c chats IH]; [reflexivity|].
  cbn [map startAll]. now rewrite populateOne_run, IH.
Qed.

Lemma promiseAll_populate (chats : list Chat) (w : World) :
  promiseAll (map populateOne chats) w
  = (settleAll w (map (populateOneSettles w) chats), w,
     map (fun c => Db (CallPopulateDocument (chat_id c) "chat")) chats).
Proof. unfold promiseAll. now rewrite startAll_populate. Qed.

(** Without a rejection [Promise.all] settles in the order of the array;
    with one it rejects, with one of the rejections. *)
Lemma settleAll_resolved {A} (w : World) (rs : list (outcome A)) :
  existsb isRejected rs = false -> settleAll w rs = allSettled rs.
Proof.
  unfold settleAll.
  induction rs as [|[a|e] rs IH]; cbn [existsb isRejected orb];
    [reflexivity| |discriminate].
  intros N. specialize (IH N). cbn [allSettled].
  change (rejections (Resolved a :: rs)) with (rejections rs).
  change (fulfilled (Resolved a :: rs)) with (a :: fulfilled rs).
  rewrite <- IH. now destruct (rejections rs).
Qed.

Lemma rejections_In {A} (rs : list (outcome A)) (e : thrown) :
  In e (rejections rs) <-> In (Rejected e) rs.
Proof.
  induction rs as [|[a|x] rs IH].
  - simpl. tauto.
  - change (rejections (Resolved a :: rs)) with (rejections rs).
    rewrite IH. split; [now right | intros [E|I]; [discriminate E | exact I]].
  - change (rejections (Rejected x :: rs)) with (x :: rejections rs).
    cbn [In]. rewrite IH. split; intros [E|I]; auto; left; congruence.
Qed.

Lemma settleAll_rejected {A} (w : World) (rs : list (outcome A)) :
  existsb isRejected rs = true ->
  exists e, settleAll w rs = Rejected e /\ In (Rejected e) rs.
Proof.
  intros E. apply existsb_exists in E as ([a|x] & I & R); [discriminate R|].
  apply rejections_In in I. unfold settleAll.
  destruct (rejections rs) as [|e es] eqn:Er; [destruct I|].
  eexists. split; [reflexivity|]. apply rejections_In. rewrite Er.
  destruct (nth_in_or_default (firstRejection w (e :: es)) (e :: es) e) as [N|N];
    [exact N | rewrite N; now left].
Qed.

Lemma getChatsByUserRoute_run (username : string) (w : World) :
  Js.truthyStr username = true ->
  getChatsByUserRoute (mkGetChatByParticipantsRequest (Some username)) w
  = (Resolved tt, consumeFault w,
     Db (CallGetChatsByParticipants [username])
     :: map (fun c => Db (CallPopulateDocument (chat_id c) "chat")) (lookup [username] w)
     ++ [byUserResponse
           (settleAll (consumeFault w)
              (map (populateOneSettles (consumeFault w)) (lookup [username] w)))]).
Proof.
  intros T.
  unfold getChatsByUserRoute, tryCatch, mbind, M_bind, bind. simpl. rewrite T. simpl.
  rewrite getChatsByParticipants_run, promiseAll_populate.
  now destruct (settleAll _ _).
Qed.

Lemma getChatsByUserRoute_missing (username : option string) (w : World) :
  Js.truthyOpt username = false ->
  getChatsByUserRoute (mkGetChatByParticipantsRequest username) w
  = (Resolved tt, w, [Respond 400 (Json (ErrorObject "Username parameter is required"))]).
Proof.
  intros T. unfold getChatsByUserRoute, tryCatch. simpl.
  destruct username as [u|]; [|reflexivity]. simpl in T.
  now rewrite T.
Qed.

End ByUser.

(** ** Where the updates go, and what the routes answer *)

Section Routes.
Context `{Externals}.

Lemma emissions_app (t1 t2 : list Event) :
  emissions (t1 ++ t2) = emissions t1 ++ emissions t2.
Proof. apply omap_app. Qed.

Lemma responses_app (t1 t2 : list Event) :
  responses (t1 ++ t2) = responses t1 ++ responses t2.
Proof. apply omap_app. Qed.

Lemma emissions_populate_calls (chats : list Chat) :
  emissions (map (fun c => Db (CallPopulateDocument (chat_id c) "chat")) chats) = [].
Proof. induction chats; [reflexivity | assumption]. Qed.

Lemma responses_populate_calls (chats : list Chat) :
  responses (map (fun c => Db (CallPopulateDocument (chat_id c) "chat")) chats) = [].
Proof. induction chats; [reflexivity | assumption]. Qed.

(** C2, as amended.  A route emits ['chatUpdate'] exactly when it answers
    200, and at most once: [addMessageToChatRoute] and
    [addParticipantToChatRoute] send it to the room named by the request's
    chat identifier and to nobody else, [createChatRoute] sends it to every
    connected client, and the two retrieval routes emit nothing. *)
Theorem chatUpdate_targets (r : Request) (w : World) :
  emissions (trace (route r) w)
  = match emitTarget r with
    | Some target =>
        if succeeded (trace (route r) w) then [(target, "chatUpdate"%string)] else []
    | None => []
    end.
Proof.
  destruct r as [[req|req|req]|req|req]; unfold trace; simpl.
  - unfold createChatRoute, tryCatch.
    destruct (isCreateChatRequestValid req); route; reflexivity.
  - unfold addMessageToChatRoute, tryCatch.
    destruct (isAddMessageRequestValid req) eqn:E; [|reflexivity].
    unfold isAddMessageRequestValid in E.
    destruct (am_body req) as [b|]; [|discriminate].
    destruct (body_msgDateTime b); route; reflexivity.
  - unfold addParticipantToChatRoute, tryCatch, chatIdOf.
    destruct (isAddParticipantRequestValid req) eqn:E; [|reflexivity].
    unfold isAddParticipantRequestValid in E.
    destruct (ap_body req) as [b|]; [|discriminate].
    destruct (ap_params req) as [p|]; [|discriminate].
    route; reflexivity.
  - unfold getChatRoute, tryCatch.
    destruct (ci_chatId req) as [c|]; [|reflexivity].
    destruct (Js.truthyStr c); route; reflexivity.
  - destruct req as [username].
    destruct (Js.truthyOpt username) eqn:T.
    + destruct username as [u|]; [|discriminate]. simpl in T.
      rewrite (getChatsByUserRoute_run u w T). simpl.
      rewrite emissions_app, emissions_populate_calls.
      now destruct (settleAll _ _).
    + now rewrite (getChatsByUserRoute_missing username w T).
Qed.

Lemma allSettled_isRejected {A} (rs : list (outcome A)) :
  isRejected (allSettled rs) = existsb isRejected rs.
Proof.
  induction rs as [|r rs IH]; [reflexivity|]. simpl.
  destruct r; [|reflexivity]. simpl. rewrite <- IH.
  now destruct (allSettled rs).
Qed.

(** C3, as amended.  Every route resolves and sends exactly one response.
    The response is JSON in every branch of [createChatRoute],
    [addMessageToChatRoute], [getChatRoute] and [addParticipantToChatRoute],
    and in the 400 branch of [getChatsByUserRoute].  With a username,
    [getChatsByUserRoute] populates the chats that
    [getChatsByParticipants] resolved to, none when the database lookup
    failed: when a populate call fails it answers 500 with the plain text
    ['Error retrieving chat: ' + message], and otherwise 200 with the JSON
    array of the populated chats. *)
Theorem chat_routes_respond (r : Request) (w : World) :
  result (route r) w = Resolved tt
  /\ exists status body,
       responses (trace (route r) w) = [(status, body)]
       /\ match r with
          | GetChatsByUser req =>
              match Js.whenTruthy (gp_username req) with
              | None => status = 400 /\ isJson body = true
              | Some username =>
                  match result (getChatsByParticipants [username]) w with
                  | Rejected _ => False
                  | Resolved chats =>
                      let settled :=
                        map (populateOneSettles
                               (after (getChatsByParticipants [username]) w)) chats in
                      if existsb isRejected settled
                      then status = 500
                           /\ exists message,
                                body = Text ("Error retrieving chat: " ++ message)
                      else status = 200
                           /\ exists docs,
                                allSettled settled = Resolved docs
                                /\ body = Json (PopulatedListJson docs)
                  end
              end
          | _ => isJson body = true
          end.
Proof.
  destruct r as [[req|req|req]|req|req]; unfold result, trace; simpl.
  - unfold createChatRoute, tryCatch.
    destruct (isCreateChatRequestValid req); route; answered.
  - unfold addMessageToChatRoute, tryCatch.
    destruct (isAddMessageRequestValid req) eqn:E; [|simpl; answered].
    unfold isAddMessageRequestValid in E.
    destruct (am_body req) as [b|]; [|discriminate].
    destruct (body_msgDateTime b); route; answered.
  - unfold addParticipantToChatRoute, tryCatch.
    destruct (isAddParticipantRequestValid req) eqn:E; [|simpl; answered].
    unfold isAddParticipantRequestValid in E.
    destruct (ap_body req) as [b|]; [|discriminate].
    destruct (ap_params req) as [p|]; [|discriminate].
    route; answered.
  - unfold getChatRoute, tryCatch.
    destruct (ci_chatId req) as [c|]; [|simpl; answered].
    destruct (Js.truthyStr c); route; answered.
  - destruct req as [username]. simpl.
    destruct (Js.truthyOpt username) eqn:T.
    + destruct username as [u|]; [|discriminate]. simpl in T |- *.
      unfold after.
      rewrite (getChatsByUserRoute_run u w T), T, getChatsByParticipants_run. simpl.
      split; [reflexivity|].
      rewrite responses_app, responses_populate_calls.
      destruct (existsb isRejected _) eqn:Rj.
      * destruct (settleAll_rejected (consumeFault w) _ Rj) as (e & -> & _).
        simpl. do 2 eexists; repeat split; eauto.
      * rewrite (settleAll_resolved _ _ Rj).
        rewrite <- allSettled_isRejected in Rj.
        destruct (allSettled _); [|discriminate Rj].
        simpl. do 2 eexists; repeat split; eauto.
    + rewrite (getChatsByUserRoute_missing username w T).
      destruct username as [u|]; simpl in T |- *; [rewrite T|]; answered.
Qed.

End Routes.

(** C2, as the claim states it, fails for [createChatRoute]: creating a chat
    emits ['chatUpdate'] to every client. *)
Lemma createChatRoute_not_room_scoped :
  ~ roomScoped (trace (createChatRoute (H := Sample.found) Sample.createRequest)
                      Sample.emptyWorld).
Proof.
  intros scoped.
  destruct (scoped AllClients (Some Sample.populatedChat)) as [room E].
  - vm_compute. tauto.
  - discriminate.
Qed.

(** C3, as the claim states it, fails for [getChatsByUserRoute]: a populate
    failure is answered in plain text, and a failure of the database lookup
    is not answered with an error at all. *)
Lemma getChatsByUserRoute_not_json_error :
  responses (trace (getChatsByUserRoute (H := Sample.failing)
                      (mkGetChatByParticipantsRequest (Some "alice"%string)))
                   Sample.oneChat)
  = [(500, Text "Error retrieving chat: Failed populating chats")]
  /\ responses (trace (getChatsByUserRoute (H := Sample.found)
                         (mkGetChatByParticipantsRequest (Some "alice"%string)))
                      (withFaults [Some (Error "connection lost")] Sample.oneChat))
     = [(200, Json (PopulatedListJson []))].
Proof. split; reflexivity. Qed.

(** ** The chat service on the store *)

Section Store.
Context `{Externals}.

Lemma faultFree_next (w : World) : faultFree w = true -> nextFault w = None.
Proof.
  unfold faultFree, nextFault.
  destruct (faults w) as [|[e|] rest]; simpl; intros E; try discriminate E; reflexivity.
Qed.

Lemma faultFree_consume (w : World) :
  faultFree w = true -> faultFree (consumeFault w) = true.
Proof.
  unfold faultFree, consumeFault.
  destruct (faults w) as [|[e|] rest] eqn:F; simpl; rewrite ?F; intros E;
    try discriminate E; assumption || reflexivity.
Qed.

Lemma driver_faultFree {A} (op : World -> A * World) (w : World) :
  faultFree w = true ->
  driver op w = (Resolved (op (consumeFault w)).1, (op (consumeFault w)).2, []).
Proof.
  intros F. unfold driver. rewrite (faultFree_next w F).
  now destruct (op (consumeFault w)).
Qed.

Lemma stamp_storedAs (n : nat) (m : Message) : storedAs m (stamp n m).
Proof.
  unfold storedAs, stamp, idToString.
  destruct m as [[i|] ? ? ? ?]; simpl; repeat split; congruence.
Qed.

Lemma stampAll_storedAs (ms : list Message) :
  forall n, Forall2 storedAs ms (stampAll n ms).
Proof.
  induction ms as [|m ms IH]; intros n; simpl; constructor.
  - apply stamp_storedAs.
  - apply IH.
Qed.

Lemma consume_messagesColl (w : World) :
  messagesColl (consumeFault w) = messagesColl w.
Proof. unfold consumeFault. now destruct (faults w). Qed.

Lemma consume_chatsColl (w : World) : chatsColl (consumeFault w) = chatsColl w.
Proof. unfold consumeFault. now destruct (faults w). Qed.

Lemma consume_oidCounter (w : World) : oidCounter (consumeFault w) = oidCounter w.
Proof. unfold consumeFault. now destruct (faults w). Qed.

(** C4.  When the database accepts the writes, [saveChat] returns the chat
    it has added to the chat collection; its participants are the payload's,
    and its message list holds, in the payload's order, the identifiers
    under which the payload's messages were added to the message collection.
    Without messages in the payload the message list is empty. *)
Theorem saveChat_creates (chatPayload : CreateChatPayload) (w : World) :
  faultFree w = true ->
  exists chat saved,
    result (saveChat chatPayload) w = Resolved (Doc chat)
    /\ participants chat = p_participants chatPayload
    /\ Forall2 storedAs (payloadMessages chatPayload) saved
    /\ messagesColl (after (saveChat chatPayload) w) = messagesColl w ++ saved
    /\ messages chat = map idToString saved
    /\ chatsColl (after (saveChat chatPayload) w) = chatsColl w ++ [chat]
    /\ (payloadMessages chatPayload = [] -> messages chat = []).
Proof.
  intros F.
  unfold result, after, saveChat, payloadMessages, MessageModel_insertMany, ChatModel_save.
  unfold mbind, mret, M_bind, M_ret, bind, ret, tryCatch, tell.
  destruct (p_messages chatPayload) as [[|m ms]|]; simpl.
  1, 3: rewrite (driver_faultFree _ w F); simpl;
        rewrite consume_messagesColl, consume_chatsColl;
        eexists _, []; rewrite app_nil_r; repeat split; constructor.
  rewrite (faultFree_next w F), (driver_faultFree _ w F). simpl.
  rewrite driver_faultFree
    by (change (faultFree (consumeFault w) = true); apply faultFree_consume, F).
  simpl. rewrite !consume_messagesColl, !consume_chatsColl. simpl.
  eexists _, (stamp _ m :: stampAll _ ms). repeat split.
  - constructor; [apply stamp_storedAs | apply stampAll_storedAs].
  - discriminate.
Qed.

Lemma matchesAll_true (p : list string) (c : Chat) :
  matchesAll p c = true -> forall name, In name p -> In name (participants c).
Proof.
  intros M name I. destruct p as [|q p]; [destruct I|].
  unfold matchesAll in M. rewrite forallb_forall in M.
  specialize (M name I). apply existsb_exists in M as (x & Ix & E).
  apply String.eqb_eq in E. now subst.
Qed.

(** C9.  [getChatsByParticipants] always resolves to an array, for every
    list of names and every state of the database; the array is empty when
    the lookup fails and when no chat contains all of the given
    participants. *)
Theorem getChatsByParticipants_total (p : list string) (w : World) :
  exists chats,
    result (getChatsByParticipants p) w = Resolved chats
    /\ (nextFault w <> None -> chats = [])
    /\ ((forall c, In c (chatsColl w) ->
          ~ (forall name, In name p -> In name (participants c))) ->
        chats = []).
Proof.
  exists (lookup p w). unfold result. rewrite getChatsByParticipants_run. simpl.
  split; [reflexivity|]. unfold lookup. split.
  - intros N. now destruct (nextFault w).
  - intros none. destruct (nextFault w); [reflexivity|].
    induction (chatsColl w) as [|c cs IH]; [reflexivity|]. simpl.
    destruct (matchesAll p c) eqn:M.
    + exfalso. apply (none c); [now left|]. now apply matchesAll_true.
    + apply IH. intros c' I. apply none. now right.
Qed.

Lemma applyUpdate_chat_id (u : Update) (c : Chat) :
  chat_id (applyUpdate u c) = chat_id c.
Proof. destruct u; simpl; [reflexivity|]. now destruct (existsb _ _). Qed.

Lemma existsb_eqb_In (x : string) (l : list string) :
  existsb (String.eqb x) l = true <-> In x l.
Proof.
  rewrite existsb_exists. split.
  - intros (y & I & E). apply String.eqb_eq in E. now subst.
  - intros I. exists x. split; [exact I | apply String.eqb_refl].
Qed.

Lemma addToSet_present (userId : string) (c : Chat) :
  In userId (participants c) -> applyUpdate (AddToSetParticipant userId) c = c.
Proof. intros I. simpl. apply existsb_eqb_In in I. now rewrite I. Qed.

Lemma addToSet_twice (userId : string) (c : Chat) :
  applyUpdate (AddToSetParticipant userId) (applyUpdate (AddToSetParticipant userId) c)
  = applyUpdate (AddToSetParticipant userId) c.
Proof.
  apply addToSet_present. simpl.
  destruct (existsb _ _) eqn:E; [now apply existsb_eqb_In|].
  simpl. apply in_or_app. right. now left.
Qed.

Lemma updateById_present (chatId userId : string) (cs : list Chat) (chat : Chat) :
  List.find (fun c => String.eqb (chat_id c) chatId) cs = Some chat ->
  In userId (participants chat) ->
  updateById chatId (AddToSetParticipant userId) cs = (Some chat, cs).
Proof.
  induction cs as [|c cs IH]; [discriminate|]. cbn [List.find updateById].
  destruct (String.eqb (chat_id c) chatId).
  - intros [= ->] I. now rewrite addToSet_present.
  - intros F I. now rewrite (IH F I).
Qed.

Lemma updateById_twice (chatId userId : string) (cs : list Chat) :
  updateById chatId (AddToSetParticipant userId)
    (updateById chatId (AddToSetParticipant userId) cs).2
  = updateById chatId (AddToSetParticipant userId) cs.
Proof.
  induction cs as [|c cs IH]; [reflexivity|]. cbn [updateById].
  destruct (String.eqb (chat_id c) chatId) eqn:E.
  - cbn [snd updateById]. rewrite applyUpdate_chat_id, E. now rewrite addToSet_twice.
  - destruct (updateById _ _ cs) as [found rest] eqn:U. cbn [snd updateById] in *.
    rewrite E, IH. reflexivity.
Qed.

Lemma addParticipantToChat_faultFree (chatId userId : string) (w : World) :
  faultFree w = true ->
  addParticipantToChat chatId userId w
  = (Resolved
       match (updateById chatId (AddToSetParticipant userId) (chatsColl w)).1 with
       | Some c => Doc c
       | None => Failure "Chat not found"
       end,
     mkWorld (messagesColl w)
       (updateById chatId (AddToSetParticipant userId) (chatsColl w)).2
       (oidCounter w) (clock w) (faults (consumeFault w)),
     [Db (CallAddParticipantToChat chatId userId)]).
Proof.
  intros F. unfold addParticipantToChat, ChatModel_findByIdAndUpdate.
  unfold mbind, mret, M_bind, M_ret, bind, ret, tryCatch, tell.
  rewrite (driver_faultFree _ w F). simpl.
  rewrite consume_chatsColl, consume_messagesColl, consume_oidCounter.
  assert (Ek : clock (consumeFault w) = clock w).
  { unfold consumeFault. now destruct (faults w). }
  rewrite Ek.
  destruct (updateById _ _ _) as [[[i ps ms]|] cs]; reflexivity.
Qed.

(** C8.  [addParticipantToChat] treats the participants as a set: adding a
    user who is already a participant returns the chat as it is and leaves
    the collection unchanged, and a second addition of the same user right
    after the first returns the same chat and changes nothing. *)
Theorem addParticipantToChat_set_semantics (chatId userId : string) (w : World) :
  faultFree w = true ->
  (forall chat,
      List.find (fun c => String.eqb (chat_id c) chatId) (chatsColl w) = Some chat ->
      In userId (participants chat) ->
      result (addParticipantToChat chatId userId) w = Resolved (Doc chat)
      /\ chatsColl (after (addParticipantToChat chatId userId) w) = chatsColl w)
  /\ result (addParticipantToChat chatId userId)
            (after (addParticipantToChat chatId userId) w)
     = result (addParticipantToChat chatId userId) w
  /\ chatsColl (after (addParticipantToChat chatId userId)
                      (after (addParticipantToChat chatId userId) w))
     = chatsColl (after (addParticipantToChat chatId userId) w).
Proof.
  intros F. unfold result, after.
  rewrite (addParticipantToChat_faultFree chatId userId w F). cbn [fst snd].
  split.
  - intros chat Found I. now rewrite (updateById_present _ _ _ _ Found I).
  - rewrite addParticipantToChat_faultFree
      by (change (faultFree (consumeFault w) = true); apply faultFree_consume, F).
    cbn [fst snd chatsColl]. now rewrite updateById_twice.
Qed.

End Store.

(** Creating a chat with one initial message on a healthy, empty store. *)
Lemma saveChat_creates_witness :
  faultFree Sample.emptyWorld = true
  /\ exists chat saved,
       result (saveChat (H := Sample.found) Sample.greeting) Sample.emptyWorld
       = Resolved (Doc chat)
       /\ participants chat = p_participants Sample.greeting
       /\ Forall2 storedAs (payloadMessages Sample.greeting) saved
       /\ messagesColl (after (saveChat (H := Sample.found) Sample.greeting) Sample.emptyWorld)
          = messagesColl Sample.emptyWorld ++ saved
       /\ messages chat = map idToString saved
       /\ chatsColl (after (saveChat (H := Sample.found) Sample.greeting) Sample.emptyWorld)
          = chatsColl Sample.emptyWorld ++ [chat]
       /\ (payloadMessages Sample.greeting = [] -> messages chat = []).
Proof.
  split; [reflexivity|].
  apply (@saveChat_creates Sample.found Sample.greeting Sample.emptyWorld).
  reflexivity.
Defined.

(** Adding the same participant twice to the chat of a one-chat store. *)
Lemma addParticipantToChat_set_semantics_witness :
  faultFree Sample.oneChat = true
  /\ result (addParticipantToChat "c1" "carol")
            (after (addParticipantToChat "c1" "carol") Sample.oneChat)
     = result (addParticipantToChat "c1" "carol") Sample.oneChat.
Proof.
  split; [reflexivity|].
  apply (addParticipantToChat_set_semantics "c1" "carol" Sample.oneChat).
  reflexivity.
Defined.

(** ** White space and [trim] *)

Section WhiteSpace.
Import HookSpec.

Lemma isWhiteSpace_isSpace (c : ascii) : Js.isWhiteSpace c = isSpace c.
Proof. destruct c as [[] [] [] [] [] [] [] []]; reflexivity. Qed.

Lemma blank_app (a b : string) : blank (a ++ b) = blank a && blank b.
Proof.
  induction a as [|c a IH]; [reflexivity|].
  change (isSpace c && blank (a ++ b) = isSpace c && blank a && blank b).
  now rewrite IH, andb_assoc.
Qed.

Lemma append_nil (b : string) : ("" ++ b)%string = b.
Proof. reflexivity. Qed.

Lemma append_cons (c : ascii) (a b : string) :
  (String c a ++ b)%string = String c (a ++ b)%string.
Proof. reflexivity. Qed.

Lemma trimStart_split (s : string) :
  exists leading, s = (leading ++ Js.trimStart s)%string /\ blank leading = true.
Proof.
  induction s as [|c s (leading & E & B)]; [now exists ""%string|].
  cbn [Js.trimStart]. destruct (Js.isWhiteSpace c) eqn:W.
  - exists (String c leading). rewrite append_cons. cbn [blank].
    rewrite <- E, <- isWhiteSpace_isSpace, W. now split.
  - now exists ""%string.
Qed.

Lemma trimStart_first (s : string) : spaceAt (firstChar (Js.trimStart s)) = false.
Proof.
  induction s as [|c s IH]; [reflexivity|]. cbn [Js.trimStart].
  destruct (Js.isWhiteSpace c) eqn:W; [exact IH|]. cbn [firstChar spaceAt].
  now rewrite <- isWhiteSpace_isSpace.
Qed.

Lemma trimEnd_split (s : string) :
  exists trailing, s = (Js.trimEnd s ++ trailing)%string /\ blank trailing = true.
Proof.
  induction s as [|c s (trailing & E & B)]; [now exists ""%string|].
  cbn [Js.trimEnd]. destruct (Js.trimEnd s) as [|k kept].
  - rewrite append_nil in E. subst trailing. destruct (Js.isWhiteSpace c) eqn:W.
    + exists (String c s). cbn [blank].
      rewrite <- isWhiteSpace_isSpace, W. now split.
    + now exists s.
  - exists trailing. split; [|exact B]. rewrite append_cons. f_equal. exact E.
Qed.

Lemma trimEnd_first (s : string) :
  spaceAt (firstChar s) = false -> spaceAt (firstChar (Js.trimEnd s)) = false.
Proof.
  destruct s as [|c s]; [reflexivity|]. cbn [Js.trimEnd]. intros N.
  destruct (Js.trimEnd s); [|exact N].
  destruct (Js.isWhiteSpace c); [reflexivity | exact N].
Qed.

Lemma trimEnd_last (s : string) : spaceAt (lastChar (Js.trimEnd s)) = false.
Proof.
  induction s as [|c s IH]; [reflexivity|]. cbn [Js.trimEnd].
  destruct (Js.trimEnd s) as [|k kept].
  - destruct (Js.isWhiteSpace c) eqn:W; [reflexivity|]. cbn [lastChar spaceAt].
    now rewrite <- isWhiteSpace_isSpace.
  - exact IH.
Qed.

(** [trim] removes the white space at the two ends, and nothing else. *)
Lemma trim_trimmedOf (s : string) : trimmedOf s (Js.trim s).
Proof.
  destruct (trimStart_split s) as (leading & E & B).
  destruct (trimEnd_split (Js.trimStart s)) as (trailing & E1 & B1).
  exists leading, trailing. unfold Js.trim.
  split; [now rewrite <- E1|]. split; [exact B|]. split; [exact B1|].
  split; [apply trimEnd_first, trimStart_first | apply trimEnd_last].
Qed.

Lemma blank_first (s : string) :
  blank s = true -> spaceAt (firstChar s) = false -> s = ""%string.
Proof.
  destruct s as [|c s]; [reflexivity|]. cbn [blank firstChar spaceAt].
  intros B N. rewrite N in B. discriminate B.
Qed.

Lemma blank_last (s : string) :
  blank s = true -> spaceAt (lastChar s) = false -> s = ""%string.
Proof.
  induction s as [|c s IH]; [reflexivity|]. cbn [blank].
  intros B N. apply andb_prop in B as [Bc Bs].
  destruct s as [|k s]; [cbn [lastChar spaceAt] in N; congruence|].
  discriminate (IH Bs N).
Qed.

(** The text is empty exactly when the draft is blank. *)
Lemma trimmedOf_empty (draft text : string) :
  trimmedOf draft text -> (text = ""%string <-> blank draft = true).
Proof.
  intros (leading & trailing & -> & B & B1 & F & L).
  rewrite !blank_app, B, B1, andb_true_r. cbn [andb]. split.
  - now intros ->.
  - intros Bt. now apply blank_first.
Qed.

Lemma trim_blank_iff (s : string) : Js.truthyStr (Js.trim s) = negb (blank s).
Proof.
  pose proof (trimmedOf_empty s (Js.trim s) (trim_trimmedOf s)) as [E1 E2].
  unfold Js.truthyStr. destruct (blank s).
  - now rewrite (E2 eq_refl).
  - destruct (String.eqb_spec (Js.trim s) ""); [|reflexivity].
    discriminate (E1 e).
Qed.

Lemma leading_unique (l1 l2 m1 m2 : string) :
  blank l1 = true -> blank l2 = true ->
  spaceAt (firstChar m1) = false -> spaceAt (firstChar m2) = false ->
  (l1 ++ m1 = l2 ++ m2)%string -> m1 = m2.
Proof.
  revert l2. induction l1 as [|a l1 IH]; intros [|b l2];
    rewrite ?append_cons, ?append_nil; cbn [blank]; intros B1 B2 F1 F2 E.
  - exact E.
  - subst m1. apply andb_prop in B2 as [Bb _]. cbn [firstChar spaceAt] in F1. congruence.
  - subst m2. apply andb_prop in B1 as [Ba _]. cbn [firstChar spaceAt] in F2. congruence.
  - apply andb_prop in B1 as [_ B1]. apply andb_prop in B2 as [_ B2].
    injection E as _ E. now apply (IH l2).
Qed.

Lemma lastChar_tail (c : ascii) (s : string) :
  spaceAt (lastChar (String c s)) = false -> spaceAt (lastChar s) = false.
Proof. destruct s; [reflexivity | exact (fun N => N)]. Qed.

Lemma trailing_unique (t1 t2 r1 r2 : string) :
  blank r1 = true -> blank r2 = true ->
  spaceAt (lastChar t1) = false -> spaceAt (lastChar t2) = false ->
  (t1 ++ r1 = t2 ++ r2)%string -> t1 = t2.
Proof.
  revert t2. induction t1 as [|a t1 IH]; intros [|b t2] B1 B2 L1 L2 E.
  - reflexivity.
  - rewrite append_nil in E. rewrite E, blank_app in B1.
    apply andb_prop in B1 as [Bt _]. now rewrite (blank_last _ Bt L2).
  - rewrite append_nil in E. rewrite <- E, blank_app in B2.
    apply andb_prop in B2 as [Bt _]. now rewrite (blank_last _ Bt L1).
  - rewrite !append_cons in E. injection E as -> E. f_equal.
    apply IH; [exact B1 | exact B2 | | | exact E].
    + now apply (lastChar_tail b).
    + now apply (lastChar_tail b).
Qed.

(** A draft has one trimmed form only. *)
Lemma trimmedOf_unique (draft text1 text2 : string) :
  trimmedOf draft text1 -> trimmedOf draft text2 -> text1 = text2.
Proof.
  intros T1 T2.
  pose proof (trimmedOf_empty _ _ T1) as E1. pose proof (trimmedOf_empty _ _ T2) as E2.
  destruct T1 as (l1 & r1 & D1 & Bl1 & Br1 & F1 & L1).
  destruct T2 as (l2 & r2 & D2 & Bl2 & Br2 & F2 & L2).
  destruct (blank draft) eqn:B.
  - destruct E1 as [_ E1], E2 as [_ E2]. now rewrite E1, E2.
  - assert (N1 : text1 <> ""%string) by (intros Z; apply E1 in Z; discriminate Z).
    assert (N2 : text2 <> ""%string) by (intros Z; apply E2 in Z; discriminate Z).
    apply (trailing_unique text1 text2 r1 r2); try assumption.
    apply (leading_unique l1 l2); try assumption.
    + destruct text1; [congruence | exact F1].
    + destruct text2; [congruence | exact F2].
    + congruence.
Qed.

End WhiteSpace.

(** ** The direct-message hook *)

Section DirectMessageHook.
Import DirectMessage HookSpec.

Lemma truthyOpt_hasId (o : option string) : Js.truthyOpt o = hasId o.
Proof. now destruct o. Qed.

(** C10.  [handleSendMessage] calls the service only when the draft is not
    blank, that is, holds more than white space, a chat is selected, and
    the selected chat and the user have identifiers; otherwise it makes no
    call and leaves the state as it is.  When it sends, the text sent is
    the draft without the white space at its two ends, and it is not empty;
    once the service has answered, the answered message, with the user
    attached, is appended to the selected chat's messages and the draft is
    cleared. *)
Theorem handleSendMessage_sends
    (sendMessage : MessagePayload -> string -> outcome Message)
    (now : Z) (user : User) (st : State) :
  let '(settled, st1, effects) := handleSendMessage sendMessage now user st in
  if canSend user st then
    exists selected chatID userID text,
      selectedChat st = Some selected
      /\ chat_id selected = Some chatID
      /\ user_id user = Some userID
      /\ trimmedOf (newMessage st) text
      /\ text <> ""%string
      /\ effects = [ApiSendMessage (mkMessagePayload chatID userID text now) chatID]
      /\ match sendMessage (mkMessagePayload chatID userID text now) chatID with
         | Resolved message =>
             settled = Resolved tt
             /\ newMessage st1 = ""%string
             /\ selectedChat st1
                = Some (mkChat (chat_id selected) (participants selected)
                          (messages selected
                           ++ [Some (mkMessage (msg_id message) (msg message)
                                       (msgFrom message) (msgDateTime message)
                                       (msgType message)
                                       (Some (mkMessageUser (Some userID) (username user))))]))
             /\ chats st1 = chats st
             /\ chatToCreate st1 = chatToCreate st
             /\ showCreatePanel st1 = showCreatePanel st
         | Rejected e => settled = Rejected e /\ st1 = st
         end
  else settled = Resolved tt /\ st1 = st /\ effects = [].
Proof.
  unfold handleSendMessage, canSend. rewrite trim_blank_iff.
  destruct (blank (newMessage st)) eqn:B; simpl; [auto|].
  assert (N : Js.trim (newMessage st) <> ""%string).
  { intros Z. apply (trimmedOf_empty _ _ (trim_trimmedOf (newMessage st))) in Z.
    congruence. }
  destruct (selectedChat st) as [selected|]; simpl; [|auto].
  destruct (chat_id selected) as [chatID|] eqn:Ec; simpl; [|auto].
  unfold Js.truthyStr.
  destruct (String.eqb chatID ""); simpl; [auto|].
  destruct (user_id user) as [userID|]; simpl; [|auto].
  unfold Js.truthyStr.
  destruct (String.eqb userID ""); simpl; [auto|].
  destruct (sendMessage _ chatID) as [message|e] eqn:Es.
  - exists selected, chatID, userID, (Js.trim (newMessage st)). rewrite Es.
    split; [reflexivity|]. split; [exact Ec|]. split; [reflexivity|].
    split; [apply trim_trimmedOf|]. split; [exact N|].
    repeat split; simpl; rewrite ?Ec; auto.
  - exists selected, chatID, userID, (Js.trim (newMessage st)). rewrite Es.
    split; [reflexivity|]. split; [exact Ec|]. split; [reflexivity|].
    split; [apply trim_trimmedOf|]. split; [exact N|].
    repeat split; auto.
Qed.

Lemma handleChatUpdate_created (chatUpdate : ChatUpdatePayload) (st : State) :
  update_type chatUpdate = "created"%string ->
  handleChatUpdate chatUpdate st
  = mkState (showCreatePanel st) (chatToCreate st) (selectedChat st)
      (chats st ++ [update_chat chatUpdate]) (newMessage st).
Proof. intros E. unfold handleChatUpdate. now rewrite E. Qed.

Lemma handleChatUpdate_other_chat (chatUpdate : ChatUpdatePayload) (st : State) :
  update_type chatUpdate = "newMessage"%string ->
  match selectedChat st with
  | Some selected => Js.strictEq (chat_id selected) (chat_id (update_chat chatUpdate)) = false
  | None => True
  end ->
  handleChatUpdate chatUpdate st = st.
Proof.
  intros E other. unfold handleChatUpdate. rewrite E. simpl.
  destruct (selectedChat st); [now rewrite other | reflexivity].
Qed.

Lemma handleChatUpdate_same_chat (chatUpdate : ChatUpdatePayload) (st : State)
    (selected : Chat) :
  update_type chatUpdate = "newMessage"%string ->
  selectedChat st = Some selected ->
  Js.strictEq (chat_id selected) (chat_id (update_chat chatUpdate)) = true ->
  selectedChat (handleChatUpdate chatUpdate st)
  = Some (mkChat (chat_id selected) (participants selected)
            (messages selected ++ [first (messages (update_chat chatUpdate))])).
Proof.
  intros E S same. unfold handleChatUpdate. rewrite E, S. simpl. now rewrite same.
Qed.

(** C5.  The selected chat holds one message and the update carries that
    chat after a second message was added to it.  The newly added message
    is the second one, yet the listener appends the first message of the
    carried chat again. *)
Theorem handleChatUpdate_appends_first_message :
  newlyAdded (update_chat Sample.secondArrives) = Some Sample.second
  /\ selectedChat (handleChatUpdate Sample.secondArrives Sample.drafting)
     = Some (mkChat (Some "c1"%string) ["alice"; "bob"]%string
               [Some Sample.first; Some Sample.first])
  /\ selectedChat (handleChatUpdate Sample.secondArrives Sample.drafting)
     <> Some (mkChat (Some "c1"%string) ["alice"; "bob"]%string
                [Some Sample.first; Some Sample.second]).
Proof. repeat split. discriminate. Qed.

End DirectMessageHook.

(** ** The game-page hook *)

Section GamePageHook.
Import GamePage HookSpec.

(** C6, as amended.  [handleLeaveGame] calls the [leaveGame] service
    exactly when a game is joined and not over; it emits ['leaveGame'] after
    that call exactly when the call succeeded and there is a socket.  In
    every case the game state, the joined-game identifier and the error end
    up [null], and the last thing it does is navigate to ['/games']. *)
Theorem handleLeaveGame_leaves
    (leaveGame : string -> string -> outcome GameInstance)
    (socket : bool) (userId : option string) (st : State) :
  (handleLeaveGame leaveGame socket userId st).1 = mkState None None None
  /\ (handleLeaveGame leaveGame socket userId st).2
     = match activeGame st with
       | Some joined =>
           let playerID := match userId with Some u => u | None => ""%string end in
           ApiLeaveGame joined playerID
           :: (if isResolved (leaveGame joined playerID) && socket
               then [SocketEmit "leaveGame" joined] else [])
           ++ [Navigate "/games"]
       | None => [Navigate "/games"]
       end.
Proof.
  unfold handleLeaveGame, activeGame.
  destruct (Js.whenTruthy (joinedGameID st)) as [joined|]; [|split; reflexivity].
  destruct (gameState st) as [game|]; [|split; reflexivity].
  destruct (String.eqb (status (state game)) "OVER"); simpl; [split; reflexivity|].
  destruct (leaveGame joined _); simpl; [|split; reflexivity].
  destruct socket; split; reflexivity.
Qed.

End GamePageHook.

(** C6, as the claim states it, fails: with a game joined and in progress,
    a failing [leaveGame] call is made and no ['leaveGame'] event follows. *)
Lemma handleLeaveGame_call_without_emit :
  HookSpec.activeGame Sample.playing = Some "g1"%string
  /\ (GamePage.handleLeaveGame Sample.unreachable true (Some "u1"%string) Sample.playing).2
     = [GamePage.ApiLeaveGame "g1" "u1"; GamePage.Navigate "/games"]
  /\ ~ In (GamePage.SocketEmit "leaveGame" "g1")
         (GamePage.handleLeaveGame Sample.unreachable true (Some "u1"%string)
            Sample.playing).2.
Proof.
  repeat split. simpl. intros [E|[E|[]]]; discriminate E.
Qed.

(** ** Room membership *)

Section Rooms.

Lemma receive_joinChat (chatID : option string) (rooms : gset string) :
  receive "joinChat" chatID rooms = onJoinChat chatID rooms.
Proof. reflexivity. Qed.

Lemma receive_leaveChat (chatID : option string) (rooms : gset string) :
  receive "leaveChat" chatID rooms = onLeaveChat chatID rooms.
Proof. reflexivity. Qed.

Lemma receive_other (event : string) (chatID : option string) (rooms : gset string) :
  event <> "joinChat"%string -> event <> "leaveChat"%string ->
  receive event chatID rooms = rooms.
Proof.
  intros J L. unfold receive, connectionListeners. cbn [fold_left fst snd].
  apply not_eq_sym, String.eqb_neq in J. apply not_eq_sym, String.eqb_neq in L.
  now rewrite J, L.
Qed.

(** C7.  On ['joinChat'] with a defined, non-empty chat identifier the
    connection is added to the room of that name, and on ['leaveChat'] it is
    removed from it; with an undefined or empty identifier, and on every
    other event, the connection's rooms stay as they are. *)
Theorem connection_rooms (event : string) (chatID : option string) (rooms : gset string) :
  match Js.whenTruthy chatID with
  | Some room =>
      (forall r, r ∈ receive "joinChat" chatID rooms <-> r = room \/ r ∈ rooms)
      /\ (forall r, r ∈ receive "leaveChat" chatID rooms <-> r ∈ rooms /\ r <> room)
  | None =>
      receive "joinChat" chatID rooms = rooms
      /\ receive "leaveChat" chatID rooms = rooms
  end
  /\ (event <> "joinChat"%string -> event <> "leaveChat"%string ->
      receive event chatID rooms = rooms).
Proof.
  split; [|apply receive_other].
  rewrite receive_joinChat, receive_leaveChat. unfold onJoinChat, onLeaveChat.
  destruct chatID as [room|]; simpl; [|split; reflexivity].
  destruct (Js.truthyStr room); [|split; reflexivity].
  split; intros r; set_solver.
Qed.

End Rooms.

(** ** Further properties of the chat service *)

Import Obs.

#[local] Set Warnings "-clear-no-such-hyp".

Section ServiceLaws.
Context `{Externals}.

Lemma sameStore_consume (w : World) : sameStore (consumeFault w) w.
Proof. split; [apply consume_messagesColl | apply consume_chatsColl]. Qed.

(** X1.  When the first database call of a service throws, the service
    still resolves: it returns [{ error }] with the thrown error's message,
    or its own fallback text when the thrown value is not an [Error].
    After [createMessage], [addMessageToChat], [getChat] and
    [addParticipantToChat] the two collections are what they were.  After
    [saveChat] the chat collection is what it was, and the message
    collection is the old one followed by the stored form of the first
    messages of the payload, as many as the interrupted [insertMany] had
    written; it is the old one when the payload has no messages. *)
Theorem services_absorb_driver_failure
    (e : thrown) (rest : list (option thrown)) (w : World)
    (chatPayload : CreateChatPayload) (messageData : Message)
    (chatId messageId userId : string) :
  let down := withFaults (Some e :: rest) w in
  (result (saveChat chatPayload) down
   = Resolved (Failure (Js.messageOr "Failed to save chat" e))
   /\ chatsColl (after (saveChat chatPayload) down) = chatsColl w
   /\ (exists count written,
         messagesColl (after (saveChat chatPayload) down) = messagesColl w ++ written
         /\ Forall2 storedAs (firstn count (payloadMessages chatPayload)) written)
   /\ (payloadMessages chatPayload = [] ->
       sameStore (after (saveChat chatPayload) down) w))
  /\ (result (createMessage messageData) down
      = Resolved (Failure (Js.messageOr "Failed to create message" e))
      /\ sameStore (after (createMessage messageData) down) w)
  /\ (result (addMessageToChat chatId messageId) down
      = Resolved (Failure (Js.messageOr "Failed to add message to chat" e))
      /\ sameStore (after (addMessageToChat chatId messageId) down) w)
  /\ (result (getChat chatId) down
      = Resolved (Failure (Js.messageOr "Failed to retrieve chat" e))
      /\ sameStore (after (getChat chatId) down) w)
  /\ (result (addParticipantToChat chatId userId) down
      = Resolved (Failure (Js.messageOr "Failed to update chat" e))
      /\ sameStore (after (addParticipantToChat chatId userId) down) w).
Proof.
  unfold sameStore, result, after, payloadMessages. simpl.
  split; [|repeat split; reflexivity].
  unfold saveChat. destruct (p_messages chatPayload) as [[|m ms]|]; simpl.
  1, 3: split; [reflexivity|]; split; [reflexivity|];
        split; [exists 0, []; rewrite app_nil_r; split; [reflexivity | constructor]
               | intros _; split; reflexivity].
  split; [reflexivity|]. split; [reflexivity|]. split; [|discriminate].
  eexists _, _. split; [reflexivity|]. apply stampAll_storedAs.
Qed.

(** X2.  [saveChat] is not atomic: when the initial messages are inserted
    and saving the chat document then fails, it returns [{ error }] and no
    chat is added, but the inserted messages stay in the message
    collection. *)
Theorem saveChat_keeps_messages_when_chat_fails
    (e : thrown) (rest : list (option thrown)) (w : World)
    (ps : list string) (m : Message) (ms : list Message) :
  let chatPayload := mkCreateChatPayload ps (Some (m :: ms)) in
  let failing := withFaults (None :: Some e :: rest) w in
  result (saveChat chatPayload) failing
  = Resolved (Failure (Js.messageOr "Failed to save chat" e))
  /\ chatsColl (after (saveChat chatPayload) failing) = chatsColl w
  /\ exists saved,
       messagesColl (after (saveChat chatPayload) failing) = messagesColl w ++ saved
       /\ Forall2 storedAs (m :: ms) saved.
Proof.
  simpl. repeat split.
  eexists. split; [reflexivity|]. apply (stampAll_storedAs (m :: ms)).
Qed.

Lemma findChat_consume (chatId : string) (w : World) :
  findChat chatId (consumeFault w) = findChat chatId w.
Proof. unfold findChat. now rewrite consume_chatsColl. Qed.

Lemma updateById_found (chatId : string) (u : Update) (cs : list Chat) (c : Chat) :
  List.find (fun x => String.eqb (chat_id x) chatId) cs = Some c ->
  (updateById chatId u cs).1 = Some (applyUpdate u c)
  /\ List.find (fun x => String.eqb (chat_id x) chatId) (updateById chatId u cs).2
     = Some (applyUpdate u c).
Proof.
  induction cs as [|x cs IH]; [discriminate|]. cbn [List.find updateById].
  destruct (String.eqb (chat_id x) chatId) eqn:E.
  - intros [= ->]. cbn [fst snd List.find]. now rewrite applyUpdate_chat_id, E.
  - intros F. destruct (IH F) as [I1 I2].
    destruct (updateById chatId u cs) as [found rest]. cbn [fst snd List.find] in *.
    now rewrite E.
Qed.

Lemma updateById_missing (chatId : string) (u : Update) (cs : list Chat) :
  List.find (fun x => String.eqb (chat_id x) chatId) cs = None ->
  updateById chatId u cs = (None, cs).
Proof.
  induction cs as [|x cs IH]; [reflexivity|]. cbn [List.find updateById].
  destruct (String.eqb (chat_id x) chatId); [discriminate|].
  intros F. now rewrite (IH F).
Qed.

Lemma updateById_others (chatId other : string) (u : Update) (cs : list Chat) :
  other <> chatId ->
  List.find (fun x => String.eqb (chat_id x) other) (updateById chatId u cs).2
  = List.find (fun x => String.eqb (chat_id x) other) cs.
Proof.
  intros N. induction cs as [|x cs IH]; [reflexivity|]. cbn [updateById].
  destruct (String.eqb (chat_id x) chatId) eqn:E.
  - cbn [snd List.find]. rewrite applyUpdate_chat_id.
    apply String.eqb_eq in E. rewrite E.
    apply not_eq_sym, String.eqb_neq in N. now rewrite N.
  - destruct (updateById chatId u cs) as [found rest]. cbn [snd List.find] in *.
    now rewrite IH.
Qed.

Lemma updateById_ids (chatId : string) (u : Update) (cs : list Chat) :
  map chat_id (updateById chatId u cs).2 = map chat_id cs.
Proof.
  induction cs as [|x cs IH]; [reflexivity|]. cbn [updateById].
  destruct (String.eqb (chat_id x) chatId).
  - cbn [snd map]. now rewrite applyUpdate_chat_id.
  - destruct (updateById chatId u cs) as [found rest]. cbn [snd map] in *.
    now rewrite IH.
Qed.

Lemma findByIdAndUpdate_faultFree (chatId : string) (u : Update) (w : World) :
  faultFree w = true ->
  ChatModel_findByIdAndUpdate chatId u w
  = (Resolved (updateById chatId u (chatsColl w)).1,
     mkWorld (messagesColl w) (updateById chatId u (chatsColl w)).2
       (oidCounter w) (clock w) (faults (consumeFault w)),
     []).
Proof.
  intros F. unfold ChatModel_findByIdAndUpdate.
  rewrite (driver_faultFree _ w F).
  rewrite consume_chatsColl, consume_messagesColl, consume_oidCounter.
  assert (Ek : clock (consumeFault w) = clock w).
  { unfold consumeFault. now destruct (faults w). }
  rewrite Ek. now destruct (updateById _ _ _).
Qed.

Lemma addMessageToChat_faultFree (chatId messageId : string) (w : World) :
  faultFree w = true ->
  addMessageToChat chatId messageId w
  = (Resolved
       match (updateById chatId (PushMessage messageId) (chatsColl w)).1 with
       | Some c => Doc c
       | None => Failure "Chat not found"
       end,
     mkWorld (messagesColl w)
       (updateById chatId (PushMessage messageId) (chatsColl w)).2
       (oidCounter w) (clock w) (faults (consumeFault w)),
     [Db (CallAddMessageToChat chatId messageId)]).
Proof.
  intros F. unfold addMessageToChat.
  unfold mbind, mret, M_bind, M_ret, bind, ret, tryCatch, tell.
  rewrite (findByIdAndUpdate_faultFree _ _ w F).
  now destruct (updateById _ _ _) as [[c|] cs].
Qed.

(** X3.  On a healthy database [addMessageToChat] changes one chat and
    nothing else: the chat stored under the identifier gets the message
    identifier at the end of its list and is what the call returns and what
    a later lookup finds; every other chat and the message collection stay
    as they were.  Without such a chat the call returns
    [{ error: 'Chat not found' }] and changes nothing. *)
Theorem addMessageToChat_updates_one_chat (chatId messageId : string) (w : World) :
  faultFree w = true ->
  match findChat chatId w with
  | Some c =>
      result (addMessageToChat chatId messageId) w
      = Resolved (Doc (withMessage messageId c))
      /\ findChat chatId (after (addMessageToChat chatId messageId) w)
         = Some (withMessage messageId c)
  | None =>
      result (addMessageToChat chatId messageId) w = Resolved (Failure "Chat not found")
      /\ chatsColl (after (addMessageToChat chatId messageId) w) = chatsColl w
  end
  /\ (forall other, other <> chatId ->
        findChat other (after (addMessageToChat chatId messageId) w) = findChat other w)
  /\ messagesColl (after (addMessageToChat chatId messageId) w) = messagesColl w.
Proof.
  intros F. unfold result, after, findChat.
  rewrite (addMessageToChat_faultFree chatId messageId w F). cbn [fst snd chatsColl messagesColl].
  split; [|split; [intros other N; now apply updateById_others | reflexivity]].
  destruct (List.find _ (chatsColl w)) as [c|] eqn:Found.
  - destruct (updateById_found chatId (PushMessage messageId) _ c Found) as [E1 E2].
    now rewrite E1, E2.
  - now rewrite (updateById_missing _ _ _ Found).
Qed.

Lemma faults_consume (w : World) : faults (consumeFault w) = tail (faults w).
Proof.
  unfold consumeFault. destruct (faults w) eqn:E; simpl; [exact E | reflexivity].
Qed.

Lemma faultFree_same (w w1 : World) :
  faults w1 = faults w -> faultFree w = true -> faultFree w1 = true.
Proof. unfold faultFree. now intros ->. Qed.

Lemma getChat_faultFree (chatId : string) (w : World) :
  faultFree w = true ->
  getChat chatId w
  = (Resolved match findChat chatId w with
              | Some c => Doc c
              | None => Failure "Chat not found"
              end,
     consumeFault w, [Db (CallGetChat chatId)]).
Proof.
  intros F. unfold getChat, ChatModel_findById.
  unfold mbind, mret, M_bind, M_ret, bind, ret, tryCatch, tell.
  rewrite (driver_faultFree _ w F). cbn [fst snd].
  fold (findChat chatId (consumeFault w)). rewrite findChat_consume.
  now destruct (findChat chatId w).
Qed.

Lemma saveChat_faultFree (chatPayload : CreateChatPayload) (w : World) :
  faultFree w = true ->
  exists chat w1,
    saveChat chatPayload w = (Resolved (Doc chat), w1, [Db (CallSaveChat chatPayload)])
    /\ chatsColl w1 = chatsColl w ++ [chat]
    /\ participants chat = p_participants chatPayload
    /\ faultFree w1 = true.
Proof.
  intros F.
  assert (F1 : faultFree (consumeFault w) = true) by now apply faultFree_consume.
  assert (F2 : faultFree (consumeFault (consumeFault w)) = true)
    by now apply faultFree_consume.
  unfold saveChat, MessageModel_insertMany, ChatModel_save.
  unfold mbind, mret, M_bind, M_ret, bind, ret, tryCatch, tell.
  destruct (p_messages chatPayload) as [[|m ms]|]; simpl.
  1, 3: rewrite (driver_faultFree _ w F); simpl; rewrite consume_chatsColl;
        eexists _, _; repeat split; exact F1.
  rewrite (faultFree_next w F), (driver_faultFree _ w F). simpl.
  rewrite driver_faultFree by exact F1.
  simpl. rewrite !consume_chatsColl. simpl.
  eexists _, _. repeat split.
  apply (faultFree_same (consumeFault (consumeFault w))); [|exact F2].
  cbn [faults]. now rewrite !faults_consume.
Qed.

Lemma find_app_fresh (chat : Chat) (cs : list Chat) :
  ~ In (chat_id chat) (map chat_id cs) ->
  List.find (fun x => String.eqb (chat_id x) (chat_id chat)) (cs ++ [chat]) = Some chat.
Proof.
  induction cs as [|x cs IH]; simpl.
  - intros _. now rewrite String.eqb_refl.
  - intros N. destruct (String.eqb (chat_id x) (chat_id chat)) eqn:E.
    + apply String.eqb_eq in E. exfalso. apply N. now left.
    + apply IH. intros I. apply N. now right.
Qed.

(** X4.  Saving then looking up: on a healthy database, the chat
    [saveChat] returns is the chat a following [getChat] finds under its
    identifier, provided the identifier the database handed out is not
    already taken by a stored chat. *)
Theorem getChat_after_saveChat
    (chatPayload : CreateChatPayload) (w : World) (chat : Chat) :
  faultFree w = true ->
  result (saveChat chatPayload) w = Resolved (Doc chat) ->
  ~ In (chat_id chat) (map chat_id (chatsColl w)) ->
  result (getChat (chat_id chat)) (after (saveChat chatPayload) w)
  = Resolved (Doc chat).
Proof.
  intros F. destruct (saveChat_faultFree chatPayload w F) as (c & w1 & E & Ec & _ & F1).
  unfold result, after. rewrite E. cbn [fst snd]. intros [= <-] Fresh.
  rewrite (getChat_faultFree _ w1 F1). cbn [fst]. unfold findChat. rewrite Ec.
  now rewrite (find_app_fresh c _ Fresh).
Qed.

Lemma matchesAll_In (p : list string) (c : Chat) :
  p <> [] -> (forall name, In name p -> In name (participants c)) ->
  matchesAll p c = true.
Proof.
  intros N all. destruct p as [|q p]; [congruence|].
  unfold matchesAll. apply forallb_forall. intros name I.
  apply existsb_eqb_In. now apply all.
Qed.

(** X5.  What [getChatsByParticipants] returns is sound and, when the
    lookup goes through, complete: every returned chat is a stored chat
    that contains all the given names; and for a non-empty list of names on
    a working database, every stored chat containing all of them is
    returned.  The call changes neither collection. *)
Theorem getChatsByParticipants_exact (p : list string) (w : World) :
  exists chats,
    result (getChatsByParticipants p) w = Resolved chats
    /\ (forall c, In c chats ->
          In c (chatsColl w) /\ forall name, In name p -> In name (participants c))
    /\ (nextFault w = None -> p <> [] ->
        forall c, In c (chatsColl w) ->
          (forall name, In name p -> In name (participants c)) -> In c chats)
    /\ sameStore (after (getChatsByParticipants p) w) w.
Proof.
  exists (lookup p w). unfold result, after. rewrite getChatsByParticipants_run.
  cbn [fst snd]. split; [reflexivity|]. unfold lookup.
  split; [|split; [|apply sameStore_consume]].
  - intros c I. destruct (nextFault w); [destruct I|].
    apply List.filter_In in I as [I M]. split; [exact I|].
    now apply matchesAll_true.
  - intros N P c I all. rewrite N. apply List.filter_In. split; [exact I|].
    now apply matchesAll_In.
Qed.

(** X6.  On a healthy database, adding a user who is not yet a participant
    puts the user at the end of the chat's participants and leaves its
    messages alone; a following [getChatsByParticipants] for that user
    finds the updated chat. *)
Theorem addParticipantToChat_then_lookup
    (chatId userId : string) (w : World) (c : Chat) :
  faultFree w = true ->
  findChat chatId w = Some c ->
  ~ In userId (participants c) ->
  result (addParticipantToChat chatId userId) w
  = Resolved (Doc (withParticipant userId c))
  /\ exists chats,
       result (getChatsByParticipants [userId])
              (after (addParticipantToChat chatId userId) w) = Resolved chats
       /\ In (withParticipant userId c) chats.
Proof.
  intros F Found Absent. unfold result, after.
  rewrite (addParticipantToChat_faultFree chatId userId w F). cbn [fst snd].
  destruct (updateById_found chatId (AddToSetParticipant userId) _ c Found) as [E1 E2].
  assert (Ea : applyUpdate (AddToSetParticipant userId) c = withParticipant userId c).
  { simpl. destruct (existsb _ _) eqn:E; [|reflexivity].
    apply existsb_eqb_In in E. contradiction. }
  rewrite Ea in *. rewrite E1. split; [reflexivity|].
  rewrite getChatsByParticipants_run. cbn [fst snd]. eexists. split; [reflexivity|].
  unfold lookup.
  rewrite faultFree_next
    by (change (faultFree (consumeFault w) = true); now apply faultFree_consume).
  cbn [chatsColl]. apply List.filter_In. split.
  - apply List.find_some in E2. apply E2.
  - apply matchesAll_In; [discriminate|]. intros name [<-|[]]. simpl.
    apply in_or_app. right. now left.
Qed.

End ServiceLaws.

(** Adding a message to the chat of a one-chat store. *)
Lemma addMessageToChat_updates_one_chat_witness :
  faultFree Sample.oneChat = true
  /\ messagesColl (after (addMessageToChat "c1" "m2") Sample.oneChat)
     = messagesColl Sample.oneChat.
Proof.
  split; [reflexivity|].
  apply (addMessageToChat_updates_one_chat "c1" "m2" Sample.oneChat).
  reflexivity.
Defined.

(** Saving a chat on the empty store and looking it up. *)
Lemma getChat_after_saveChat_witness :
  faultFree Sample.emptyWorld = true
  /\ result (saveChat (H := Sample.found) Sample.greeting) Sample.emptyWorld
     = Resolved (Doc Sample.greetingChat)
  /\ ~ In (chat_id Sample.greetingChat) (map chat_id (chatsColl Sample.emptyWorld))
  /\ result (getChat (chat_id Sample.greetingChat))
            (after (saveChat (H := Sample.found) Sample.greeting) Sample.emptyWorld)
     = Resolved (Doc Sample.greetingChat).
Proof.
  split; [reflexivity|]. split; [reflexivity|]. split; [simpl; tauto|].
  apply (@getChat_after_saveChat Sample.found Sample.greeting Sample.emptyWorld
           Sample.greetingChat).
  - reflexivity.
  - reflexivity.
  - simpl. tauto.
Defined.

(** Adding a third participant to the chat of a one-chat store. *)
Lemma addParticipantToChat_then_lookup_witness :
  faultFree Sample.oneChat = true
  /\ findChat "c1" Sample.oneChat = Some Sample.aliceAndBob
  /\ ~ In "carol"%string (participants Sample.aliceAndBob)
  /\ result (addParticipantToChat "c1" "carol") Sample.oneChat
     = Resolved (Doc (withParticipant "carol" Sample.aliceAndBob)).
Proof.
  split; [reflexivity|]. split; [reflexivity|].
  assert (absent : ~ In "carol"%string (participants Sample.aliceAndBob)).
  { simpl. intros [E|[E|[]]]; discriminate E. }
  split; [exact absent|].
  apply (addParticipantToChat_then_lookup "c1" "carol" Sample.oneChat Sample.aliceAndBob).
  - reflexivity.
  - reflexivity.
  - exact absent.
Defined.

(** ** Nothing is ever deleted *)

Section Preservation.
Variable R : World -> World -> Prop.
Hypothesis R_refl : forall w, R w w.
Hypothesis R_trans : forall a b c, R a b -> R b c -> R a c.
Context `{Externals}.

Lemma preserves_ret {A} (a : A) : preserves R (mret a).
Proof. intros w. apply R_refl. Qed.

Lemma preserves_tell (ev : Event) : preserves R (tell ev).
Proof. intros w. apply R_refl. Qed.

Lemma preserves_throw {A} (e : thrown) : preserves R (@throw A e).
Proof. intros w. apply R_refl. Qed.

Lemma preserves_readWorld {A} (f : World -> outcome A) : preserves R (readWorld f).
Proof. intros w. apply R_refl. Qed.

Lemma preserves_newDate : preserves R newDate.
Proof. intros w. apply R_refl. Qed.

Lemma preserves_bind {A B} (m : M A) (k : A -> M B) :
  preserves R m -> (forall a, preserves R (k a)) -> preserves R (m ≫= k).
Proof.
  intros Pm Pk w. specialize (Pm w). unfold after, mbind, M_bind, bind in *.
  destruct (m w) as [[[a|e] w1] t1]; cbn [fst snd] in *; [|exact Pm].
  specialize (Pk a w1). unfold after in Pk.
  destruct (k a w1) as [[r w2] t2]. cbn [fst snd] in *. eauto.
Qed.

Lemma preserves_tryCatch {A} (body : M A) (handler : thrown -> M A) :
  preserves R body -> (forall e, preserves R (handler e)) ->
  preserves R (tryCatch body handler).
Proof.
  intros Pb Ph w. specialize (Pb w). unfold after, tryCatch in *.
  destruct (body w) as [[[a|e] w1] t1]; cbn [fst snd] in *; [exact Pb|].
  specialize (Ph e w1). unfold after in Ph.
  destruct (handler e w1) as [[r w2] t2]. cbn [fst snd] in *. eauto.
Qed.

Lemma preserves_driver {A} (op : World -> A * World) :
  (forall w, R w (consumeFault w)) -> (forall w, R w (op w).2) ->
  preserves R (driver op).
Proof.
  intros Pc Po w. unfold after, driver.
  destruct (nextFault w); cbn [fst snd]; [apply Pc|].
  specialize (Po (consumeFault w)). destruct (op (consumeFault w)) as [a w1].
  cbn [fst snd] in *. eauto.
Qed.

Lemma preserves_startAll {A} (ps : list (M A)) :
  Forall (preserves R) ps -> forall w, R w (startAll ps w).1.2.
Proof.
  induction 1 as [|p ps Pp _ IH]; intros w; [apply R_refl|].
  specialize (Pp w). unfold after in *. cbn [startAll].
  destruct (p w) as [[r w1] t1]. cbn [fst snd] in *.
  specialize (IH w1).
  destruct (startAll ps w1) as [[rs w2] t2].
  cbn [fst snd] in *. eauto.
Qed.

Lemma preserves_promiseAll {A} (ps : list (M A)) :
  Forall (preserves R) ps -> preserves R (promiseAll ps).
Proof.
  intros P w. pose proof (preserves_startAll ps P w) as S.
  unfold after, promiseAll. now destruct (startAll ps w) as [[rs w1] t].
Qed.

End Preservation.

Section Growth.
Context `{Externals}.

Lemma extends_refl (c : Chat) : extends c c.
Proof. repeat split; exists []; now rewrite app_nil_r. Qed.

Lemma extends_trans (a b c : Chat) : extends a b -> extends b c -> extends a c.
Proof.
  intros (I1 & (p1 & P1) & (m1 & M1)) (I2 & (p2 & P2) & (m2 & M2)).
  repeat split.
  - congruence.
  - exists (p1 ++ p2). now rewrite P2, P1, app_assoc.
  - exists (m1 ++ m2). now rewrite M2, M1, app_assoc.
Qed.

Lemma Forall2_extends_refl (cs : list Chat) : Forall2 extends cs cs.
Proof. induction cs; constructor; [apply extends_refl | assumption]. Qed.

Lemma Forall2_extends_trans (xs ys zs : list Chat) :
  Forall2 extends xs ys -> Forall2 extends ys zs -> Forall2 extends xs zs.
Proof.
  intros X. revert zs. induction X as [|x y xs ys E _ IH]; intros zs Y.
  - inversion Y. constructor.
  - inversion Y as [|? z ? zs1 E1 Y1]; subst. constructor.
    + now apply (extends_trans x y z).
    + now apply IH.
Qed.

Lemma grows_refl (w : World) : grows w w.
Proof.
  split; [exists []; now rewrite app_nil_r|].
  exists (chatsColl w), []. split; [now rewrite app_nil_r | apply Forall2_extends_refl].
Qed.

Lemma grows_trans (a b c : World) : grows a b -> grows b c -> grows a c.
Proof.
  intros [(m1 & M1) (k1 & a1 & C1 & E1)] [(m2 & M2) (k2 & a2 & C2 & E2)]. split.
  - exists (m1 ++ m2). now rewrite M2, M1, app_assoc.
  - rewrite C1 in E2. apply Forall2_app_inv_l in E2 as (k2a & k2b & Ea & Eb & ->).
    exists k2a, (k2b ++ a2). split; [now rewrite C2, app_assoc|].
    now apply (Forall2_extends_trans _ k1).
Qed.

Lemma grows_consume (w : World) : grows w (consumeFault w).
Proof.
  split.
  - exists []. now rewrite consume_messagesColl, app_nil_r.
  - exists (chatsColl w), []. rewrite consume_chatsColl, app_nil_r.
    split; [reflexivity | apply Forall2_extends_refl].
Qed.

Lemma applyUpdate_extends (u : Update) (c : Chat) : extends c (applyUpdate u c).
Proof.
  destruct u as [m|p]; simpl.
  - repeat split; [exists []; now rewrite app_nil_r | now exists [m]].
  - destruct (existsb _ _); [apply extends_refl|].
    repeat split; [now exists [p] | exists []; now rewrite app_nil_r].
Qed.

Lemma updateById_extends (chatId : string) (u : Update) (cs : list Chat) :
  Forall2 extends cs (updateById chatId u cs).2.
Proof.
  induction cs as [|x cs IH]; [constructor|]. cbn [updateById].
  destruct (String.eqb (chat_id x) chatId).
  - constructor; [apply applyUpdate_extends | apply Forall2_extends_refl].
  - destruct (updateById chatId u cs) as [found rest]. cbn [snd] in *.
    constructor; [apply extends_refl | exact IH].
Qed.

Lemma grows_messages (w w1 : World) (added : list Message) :
  messagesColl w1 = messagesColl w ++ added -> chatsColl w1 = chatsColl w ->
  grows w w1.
Proof.
  intros M C. split; [now exists added|].
  exists (chatsColl w), []. rewrite C, app_nil_r.
  split; [reflexivity | apply Forall2_extends_refl].
Qed.

Lemma grows_chats (w w1 : World) (kept added : list Chat) :
  messagesColl w1 = messagesColl w -> chatsColl w1 = kept ++ added ->
  Forall2 extends (chatsColl w) kept ->
  grows w w1.
Proof.
  intros M C E. split; [exists []; now rewrite M, app_nil_r|]. now exists kept, added.
Qed.

Ltac grow_step :=
  first
    [ apply (preserves_bind grows grows_trans); [|intros ?]
    | apply (preserves_tryCatch grows grows_trans); [|intros ?]
    | apply (preserves_ret grows grows_refl)
    | apply (preserves_tell grows grows_refl)
    | apply (preserves_throw grows grows_refl)
    | apply (preserves_readWorld grows grows_refl)
    | apply (preserves_newDate grows grows_refl)
    | apply (preserves_driver grows grows_refl grows_trans _ grows_consume);
      intros ?; cbn [snd]
    | match goal with
      | |- preserves grows (match ?x with _ => _ end) => destruct x
      | |- preserves grows (if ?x then _ else _) => destruct x
      end ].

Ltac grow := repeat grow_step.

Lemma insertMany_grows (docs : list Message) :
  preserves grows (MessageModel_insertMany docs).
Proof.
  intros w. unfold after, MessageModel_insertMany, driver.
  destruct (nextFault w); cbn [fst snd];
    (apply (grows_trans _ (consumeFault w)); [apply grows_consume|]);
    eapply grows_messages; reflexivity.
Qed.

Lemma saveChat_grows (p : CreateChatPayload) : preserves grows (saveChat p).
Proof.
  unfold saveChat, ChatModel_save. repeat first [apply insertMany_grows | grow_step].
  eapply grows_chats; [reflexivity | reflexivity | apply Forall2_extends_refl].
Qed.

Lemma createMessage_grows (m : Message) : preserves grows (createMessage m).
Proof.
  unfold createMessage, MessageModel_save. grow.
  now apply (grows_messages _ _ [stamp (oidCounter w) m]).
Qed.

Lemma findByIdAndUpdate_grows (chatId : string) (u : Update) :
  preserves grows (ChatModel_findByIdAndUpdate chatId u).
Proof.
  unfold ChatModel_findByIdAndUpdate. grow.
  pose proof (updateById_extends chatId u (chatsColl w)) as E.
  destruct (updateById chatId u (chatsColl w)) as [found cs]. cbn [snd] in *.
  apply (grows_chats _ _ cs []); [reflexivity | now rewrite app_nil_r | exact E].
Qed.

Lemma addMessageToChat_grows (chatId messageId : string) :
  preserves grows (addMessageToChat chatId messageId).
Proof.
  unfold addMessageToChat. repeat first [apply findByIdAndUpdate_grows | grow_step].
Qed.

Lemma addParticipantToChat_grows (chatId userId : string) :
  preserves grows (addParticipantToChat chatId userId).
Proof.
  unfold addParticipantToChat. repeat first [apply findByIdAndUpdate_grows | grow_step].
Qed.

Lemma getChat_grows (chatId : string) : preserves grows (getChat chatId).
Proof. unfold getChat, ChatModel_findById. grow; apply grows_refl. Qed.

Lemma getChatsByParticipants_grows (p : list string) :
  preserves grows (getChatsByParticipants p).
Proof. unfold getChatsByParticipants, ChatModel_find. grow; apply grows_refl. Qed.

Lemma populate_grows (id kind : string) : preserves grows (populate id kind).
Proof. unfold populate. grow. Qed.

Ltac grow_route :=
  repeat first
    [ apply saveChat_grows
    | apply createMessage_grows
    | apply addMessageToChat_grows
    | apply addParticipantToChat_grows
    | apply getChat_grows
    | apply getChatsByParticipants_grows
    | apply populate_grows
    | grow_step ].

(** X7.  No route ever deletes, reorders or rewrites anything, whatever the
    request and however the database fails: after any route has run, the
    message collection is the old one followed by new messages, and the
    chat collection is the old chats in their old order, each with the same
    identifier and with its old participants and messages as a prefix of
    the new ones, followed by new chats. *)
Theorem routes_only_add (r : Request) (w : World) : grows w (after (route r) w).
Proof.
  revert w. change (preserves grows (route r)).
  destruct r as [[req|req|req]|req|req]; simpl.
  - unfold createChatRoute, respondJson, socketEmit. grow_route.
  - unfold addMessageToChatRoute, respondJson, socketToEmit. grow_route.
  - unfold addParticipantToChatRoute, respondJson, socketToEmit. grow_route.
  - unfold getChatRoute, respondJson. grow_route.
  - unfold getChatsByUserRoute, respondJson, respondText. grow_route.
    apply (preserves_promiseAll grows grows_refl grows_trans).
    apply List.Forall_forall. intros m I. apply in_map_iff in I as (c & <- & _).
    unfold populateOne. grow_route.
Qed.

End Growth.

(** ** What the routes leave in the store *)

Section RouteEffects.
Context `{Externals}.

Lemma createMessage_faultFree (m : Message) (w : World) :
  faultFree w = true ->
  createMessage m w
  = (Resolved (Doc (stamp (oidCounter w) m)),
     mkWorld (messagesColl w ++ [stamp (oidCounter w) m]) (chatsColl w)
       (S (oidCounter w)) (clock w) (faults (consumeFault w)),
     [Db (CallCreateMessage m)]).
Proof.
  intros F. unfold createMessage, MessageModel_save.
  unfold mbind, mret, M_bind, M_ret, bind, ret, tryCatch, tell.
  rewrite (driver_faultFree _ w F). cbn [fst snd].
  rewrite consume_chatsColl, consume_messagesColl, consume_oidCounter.
  assert (Ek : clock (consumeFault w) = clock w).
  { unfold consumeFault. now destruct (faults w). }
  now rewrite Ek.
Qed.

Lemma same_relation_refl (w : World) : sameStore w w.
Proof. now split. Qed.

Lemma same_relation_trans (a b c : World) :
  sameStore b a -> sameStore c b -> sameStore c a.
Proof. intros [M1 C1] [M2 C2]. split; congruence. Qed.

Ltac keep_step :=
  let R := constr:(fun w w1 : World => sameStore w1 w) in
  first
    [ apply (preserves_bind R same_relation_trans); [|intros ?]
    | apply (preserves_tryCatch R same_relation_trans); [|intros ?]
    | apply (preserves_ret R same_relation_refl)
    | apply (preserves_tell R same_relation_refl)
    | apply (preserves_throw R same_relation_refl)
    | apply (preserves_readWorld R same_relation_refl)
    | apply (preserves_driver R same_relation_refl same_relation_trans _ sameStore_consume);
      intros ?; cbn [snd]; apply same_relation_refl
    | match goal with
      | |- preserves _ (match ?x with _ => _ end) => destruct x
      | |- preserves _ (if ?x then _ else _) => destruct x
      end ].

(** X8.  The two retrieval routes only read: whatever the request, the
    state of the database and the answers of [populateDocument], the two
    collections are the same after [getChatRoute] and
    [getChatsByUserRoute] as before. *)
Theorem retrieval_routes_only_read
    (byId : ChatIdRequest) (byUser : GetChatByParticipantsRequest) (w : World) :
  sameStore (after (getChatRoute byId) w) w
  /\ sameStore (after (getChatsByUserRoute byUser) w) w.
Proof.
  split; revert w.
  - change (preserves (fun w w1 => sameStore w1 w) (getChatRoute byId)).
    unfold getChatRoute, getChat, ChatModel_findById, populate, respondJson.
    repeat keep_step.
  - change (preserves (fun w w1 => sameStore w1 w) (getChatsByUserRoute byUser)).
    unfold getChatsByUserRoute, getChatsByParticipants, ChatModel_find,
      respondJson, respondText.
    repeat keep_step.
    apply (preserves_promiseAll (fun w w1 => sameStore w1 w)
             same_relation_refl same_relation_trans).
    apply List.Forall_forall. intros m I. apply in_map_iff in I as (c & <- & _).
    unfold populateOne, populate. repeat keep_step.
Qed.

(** X9.  [addMessageToChatRoute] stores the message before it touches the
    chat, and what it has stored stays whatever happens next.  For a valid
    request on a healthy database the message is added to the message
    collection; if the chat exists it gets the new message's identifier at
    the end of its list, even when [populateDocument] then fails; if it does
    not exist the route answers 500 with ['Chat not found'], emits nothing,
    and the message stays stored without a chat. *)
Theorem addMessageToChatRoute_stores_first (req : AddMessageRequestToChat) (w : World) :
  isAddMessageRequestValid req = true ->
  faultFree w = true ->
  Js.truthyStr (newObjectId (oidCounter w)) = true ->
  exists stored,
    messagesColl (after (addMessageToChatRoute req) w) = messagesColl w ++ [stored]
    /\ storedAs (messageOf req w) stored
    /\ match findChat (am_chatId req) w with
       | Some c =>
           findChat (am_chatId req) (after (addMessageToChatRoute req) w)
           = Some (withMessage (idToString stored) c)
       | None =>
           chatsColl (after (addMessageToChatRoute req) w) = chatsColl w
           /\ responses (trace (addMessageToChatRoute req) w)
              = [(500, Json (ErrorObject "Chat not found"))]
           /\ emissions (trace (addMessageToChatRoute req) w) = []
       end.
Proof.
  intros V F T.
  exists (stamp (oidCounter w) (messageOf req w)).
  split; [|split; [apply stamp_storedAs|]].
  all: unfold after, trace, addMessageToChatRoute, tryCatch, messageOf, findChat;
    rewrite V; unfold isAddMessageRequestValid in V;
    destruct (am_body req) as [b|]; [|discriminate];
    unfold mbind, mret, M_bind, M_ret, bind, ret; cbn [negb];
    destruct (body_msgDateTime b); cbn [newDate fst snd];
    rewrite createMessage_faultFree by exact F; cbn [fst snd msg_id stamp Js.truthyOpt];
    rewrite T; cbn [negb idToString msg_id];
    (rewrite addMessageToChat_faultFree
       by (change (faultFree (consumeFault w) = true); now apply faultFree_consume));
    cbn [fst snd chatsColl messagesColl].
  1, 2: destruct (updateById _ _ _) as [[c|] cs]; cbn [fst snd]; [|reflexivity];
        rewrite populate_run; now destruct (populateDocument _ _ _) as [[d|e|]|e].
  all: destruct (List.find _ (chatsColl w)) as [c|] eqn:Found;
    [ destruct (updateById_found (am_chatId req) (PushMessage (newObjectId (oidCounter w)))
                  _ c Found) as [E1 E2];
      destruct (updateById _ _ _) as [found cs]; cbn [fst snd] in *; subst found;
      rewrite populate_run; now destruct (populateDocument _ _ _) as [[d|e|]|e]
    | now rewrite (updateById_missing _ _ _ Found) ].
Qed.

Lemma participantOf_strings (names : list string) :
  map participantOf (map Js.Str names) = names.
Proof. induction names as [|n names IH]; [reflexivity|]. cbn [map]. now rewrite IH. Qed.

(** X10.  [createChatRoute] saves first and populates afterwards.  For a
    valid request whose participants are strings, as the request type
    declares them, on a healthy database: the new chat, with the request's
    participants, is added to the chat collection whatever
    [populateDocument] does next; the answer is 200 with the populated
    chat, or 500 with ['Failed to create chat'] when populating fails,
    although the chat has been created. *)
Theorem createChatRoute_saves_first
    (req : CreateChatRequest) (names : list string) (w : World) :
  isCreateChatRequestValid req = true ->
  requestParticipants req = Js.Array (map Js.Str names) ->
  faultFree w = true ->
  exists chat,
    chatsColl (after (createChatRoute req) w) = chatsColl w ++ [chat]
    /\ participants chat = names
    /\ responses (trace (createChatRoute req) w)
       = [match populateDocument (chat_id chat) "chat" (after (createChatRoute req) w) with
          | Resolved (PopulateError _) | Rejected _ =>
              (500, Json (ErrorObject "Failed to create chat"))
          | Resolved p => (200, Json (PopulatedJson (populatedValue p)))
          end].
Proof.
  intros V Typed F.
  destruct (saveChat_faultFree (requestPayload req) w F) as (chat & w1 & E & Ec & Ep & _).
  unfold requestPayload in Ep. cbn [p_participants] in Ep.
  rewrite Typed in Ep. cbn [Js.elements] in Ep. rewrite participantOf_strings in Ep.
  exists chat. unfold after, trace, createChatRoute, tryCatch. rewrite V.
  unfold mbind, mret, M_bind, M_ret, bind, ret. cbn [negb]. rewrite E, populate_run.
  destruct (populateDocument (chat_id chat) "chat" w1) as [[d|e|]|e] eqn:P;
    simpl; rewrite ?P; auto.
Qed.

(** X11.  What [getChatRoute] answers on a healthy database: 400 when the
    chat identifier is missing or empty; 500 with ['Chat not found'] when no
    chat is stored under it; otherwise 200 with the populated chat, or 500
    with ['Failed to retrieve chat'] when populating fails. *)
Theorem getChatRoute_answers (req : ChatIdRequest) (w : World) :
  faultFree w = true ->
  responses (trace (getChatRoute req) w)
  = [match Js.whenTruthy (ci_chatId req) with
     | None => (400, Json (ErrorObject "Chat ID is required"))
     | Some chatId =>
         match findChat chatId w with
         | None => (500, Json (ErrorObject "Chat not found"))
         | Some c =>
             match populateDocument (chat_id c) "chat" (after (getChatRoute req) w) with
             | Resolved (PopulateError _) | Rejected _ =>
                 (500, Json (ErrorObject "Failed to retrieve chat"))
             | Resolved p => (200, Json (PopulatedJson (populatedValue p)))
             end
         end
     end].
Proof.
  intros F. unfold after, trace, getChatRoute, tryCatch.
  destruct (ci_chatId req) as [chatId|]; [|reflexivity]. cbn [Js.whenTruthy].
  destruct (Js.truthyStr chatId); [|reflexivity]. cbn [negb].
  unfold mbind, mret, M_bind, M_ret, bind, ret.
  rewrite (getChat_faultFree chatId w F).
  destruct (findChat chatId w) as [c|]; [|reflexivity].
  rewrite populate_run.
  destruct (populateDocument (chat_id c) "chat" (consumeFault w)) as [[d|e|]|e] eqn:P;
    simpl; rewrite ?P; reflexivity.
Qed.

End RouteEffects.

(** Adding a message through the route to the chat of a one-chat store. *)
Lemma addMessageToChatRoute_stores_first_witness :
  isAddMessageRequestValid Sample.helloRequest = true
  /\ faultFree Sample.oneChat = true
  /\ Js.truthyStr (@newObjectId Sample.found (oidCounter Sample.oneChat)) = true
  /\ exists stored,
       messagesColl (after (addMessageToChatRoute (H := Sample.found) Sample.helloRequest)
                           Sample.oneChat)
       = messagesColl Sample.oneChat ++ [stored].
Proof.
  split; [reflexivity|]. split; [reflexivity|]. split; [reflexivity|].
  destruct (@addMessageToChatRoute_stores_first Sample.found Sample.helloRequest
              Sample.oneChat eq_refl eq_refl eq_refl) as (stored & E & _).
  exists stored. exact E.
Defined.

(** Creating a chat through the route on the empty store. *)
Lemma createChatRoute_saves_first_witness :
  isCreateChatRequestValid Sample.createRequest = true
  /\ requestParticipants Sample.createRequest
     = Js.Array (map Js.Str ["alice"; "bob"]%string)
  /\ faultFree Sample.emptyWorld = true
  /\ exists chat,
       chatsColl (after (createChatRoute (H := Sample.found) Sample.createRequest)
                        Sample.emptyWorld)
       = chatsColl Sample.emptyWorld ++ [chat]
       /\ participants chat = ["alice"; "bob"]%string.
Proof.
  split; [reflexivity|]. split; [reflexivity|]. split; [reflexivity|].
  destruct (@createChatRoute_saves_first Sample.found Sample.createRequest
              ["alice"; "bob"]%string Sample.emptyWorld eq_refl eq_refl eq_refl)
    as (chat & E & P & _).
  exists chat. split; [exact E | exact P].
Defined.

(** Retrieving the chat of a one-chat store. *)
Lemma getChatRoute_answers_witness :
  faultFree Sample.oneChat = true
  /\ responses (trace (getChatRoute (H := Sample.found) (mkChatIdRequest (Some "c1"%string)))
                      Sample.oneChat)
     = [(200, Json (PopulatedJson (Some Sample.populatedChat)))].
Proof.
  split; [reflexivity|].
  apply (@getChatRoute_answers Sample.found (mkChatIdRequest (Some "c1"%string))
           Sample.oneChat).
  reflexivity.
Defined.

(** ** What the validators let through *)

Section Validators.

Lemma nonEmptyString (v : Js.value) :
  Js.truthy v && String.eqb (Js.typeof v) "string" = true
  <-> exists s, v = Js.Str s /\ s <> ""%string.
Proof.
  split.
  - destruct v as [| |b|n|s|l|fs]; simpl; rewrite ?andb_false_r; try discriminate.
    rewrite andb_true_r. intros T. exists s. split; [reflexivity|].
    intros ->. discriminate T.
  - intros (s & -> & N). simpl. rewrite andb_true_r.
    apply negb_true_iff, String.eqb_neq, N.
Qed.

(** X12.  The validators accept exactly these requests: to create a chat,
    a body whose [participants] is a non-empty array, whatever its elements;
    to add a message, a body whose [msg] and [msgFrom] are non-empty
    strings; to add a participant, a body and parameters whose
    [participantId] and [chatId] are non-empty strings. *)
Theorem validators_accept_exactly :
  (forall req,
      isCreateChatRequestValid req = true
      <-> exists b first rest,
            cc_body req = Some b /\ body_participants b = Js.Array (first :: rest))
  /\ (forall req,
        isAddMessageRequestValid req = true
        <-> exists b m f,
              am_body req = Some b
              /\ body_msg b = Js.Str m /\ body_msgFrom b = Js.Str f
              /\ m <> ""%string /\ f <> ""%string)
  /\ (forall req,
        isAddParticipantRequestValid req = true
        <-> exists body params u c,
              ap_body req = Some body /\ ap_params req = Some params
              /\ body_participantId body = Js.Str u /\ param_chatId params = Js.Str c
              /\ u <> ""%string /\ c <> ""%string).
Proof.
  split; [|split]; intros req.
  - unfold isCreateChatRequestValid, requestParticipants. split.
    + destruct (cc_body req) as [b|]; [|discriminate].
      destruct (body_participants b) as [| | | | |[|x l]|] eqn:E; try discriminate.
      intros _. now exists b, x, l.
    + intros (b & x & l & -> & ->). reflexivity.
  - unfold isAddMessageRequestValid. split.
    + destruct (am_body req) as [b|]; [|discriminate]. intros V.
      assert (Vm : Js.truthy (body_msg b) && String.eqb (Js.typeof (body_msg b)) "string"
                   = true).
      { destruct (Js.truthy (body_msg b)), (String.eqb (Js.typeof (body_msg b)) "string");
          simpl in *; try discriminate; try reflexivity.
        all: rewrite ?andb_false_r in V; discriminate. }
      assert (Vf : Js.truthy (body_msgFrom b)
                   && String.eqb (Js.typeof (body_msgFrom b)) "string" = true).
      { destruct (Js.truthy (body_msgFrom b)),
          (String.eqb (Js.typeof (body_msgFrom b)) "string");
          simpl in *; rewrite ?andb_false_r, ?andb_true_r in V;
          try discriminate; reflexivity. }
      apply nonEmptyString in Vm as (m & Em & Nm).
      apply nonEmptyString in Vf as (f & Ef & Nf).
      now exists b, m, f.
    + intros (b & m & f & -> & -> & -> & Nm & Nf). simpl.
      apply String.eqb_neq in Nm, Nf. now rewrite Nm, Nf.
  - unfold isAddParticipantRequestValid. split.
    + destruct (ap_body req) as [body|]; [|discriminate].
      destruct (ap_params req) as [params|]; [|discriminate]. intros V.
      assert (Vu : Js.truthy (body_participantId body)
                   && String.eqb (Js.typeof (body_participantId body)) "string" = true).
      { destruct (Js.truthy (body_participantId body)),
          (String.eqb (Js.typeof (body_participantId body)) "string");
          simpl in *; rewrite ?andb_false_r in V; try discriminate; reflexivity. }
      assert (Vc : Js.truthy (param_chatId params)
                   && String.eqb (Js.typeof (param_chatId params)) "string" = true).
      { destruct (Js.truthy (param_chatId params)),
          (String.eqb (Js.typeof (param_chatId params)) "string");
          simpl in *; rewrite ?andb_false_r, ?andb_true_r in V;
          try discriminate; reflexivity. }
      apply nonEmptyString in Vu as (u & Eu & Nu).
      apply nonEmptyString in Vc as (c & Ec & Nc).
      now exists body, params, u, c.
    + intros (body & params & u & c & -> & -> & -> & -> & Nu & Nc). simpl.
      apply String.eqb_neq in Nu, Nc. now rewrite Nu, Nc.
Qed.

End Validators.

(** ** Joining and leaving rooms *)

Section RoomAlgebra.

Lemma receive_elsewhere
    (event : string) (chatID : option string) (rooms : gset string) (r : string) :
  Some r <> chatID -> r ∈ receive event chatID rooms <-> r ∈ rooms.
Proof.
  intros N. destruct (String.eqb event "joinChat") eqn:J.
  - apply String.eqb_eq in J. subst event. rewrite receive_joinChat.
    unfold onJoinChat. destruct chatID as [room|]; [|reflexivity].
    destruct (Js.truthyStr room); [|reflexivity].
    assert (Hne : r <> room) by congruence. set_solver.
  - destruct (String.eqb event "leaveChat") eqn:L.
    + apply String.eqb_eq in L. subst event. rewrite receive_leaveChat.
      unfold onLeaveChat. destruct chatID as [room|]; [|reflexivity].
      destruct (Js.truthyStr room); [|reflexivity].
      assert (Hne : r <> room) by congruence. set_solver.
    + apply String.eqb_neq in J, L. now rewrite receive_other.
Qed.

(** X13.  Joining and leaving compose as set operations: joining a room
    twice is joining it once; leaving right after joining is leaving;
    joining right after leaving is joining; and no event changes the
    membership of any room other than the one it names. *)
Theorem rooms_algebra (event : string) (chatID : option string) (rooms : gset string) :
  receive "joinChat" chatID (receive "joinChat" chatID rooms)
  = receive "joinChat" chatID rooms
  /\ receive "leaveChat" chatID (receive "joinChat" chatID rooms)
     = receive "leaveChat" chatID rooms
  /\ receive "joinChat" chatID (receive "leaveChat" chatID rooms)
     = receive "joinChat" chatID rooms
  /\ (forall r, Some r <> chatID -> r ∈ receive event chatID rooms <-> r ∈ rooms).
Proof.
  split; [|split; [|split; [|intros r; apply receive_elsewhere]]].
  all: change (receive "joinChat") with onJoinChat;
    change (receive "leaveChat") with onLeaveChat;
    unfold onJoinChat, onLeaveChat;
    destruct chatID as [room|]; [|reflexivity];
    destruct (Js.truthyStr room); [|reflexivity];
    apply set_eq; intros r; destruct (decide (r = room)); set_solver.
Qed.

End RoomAlgebra.

(** ** Trimmed text *)

Section Trim.

Lemma trimStart_head (s : string) (c : ascii) (rest : string) :
  Js.trimStart s = String c rest -> Js.isWhiteSpace c = false.
Proof.
  induction s as [|d s IH]; simpl; [discriminate|].
  destruct (Js.isWhiteSpace d) eqn:W; [exact IH|].
  now intros [= <- _].
Qed.

Lemma trimStart_fixed (c : ascii) (rest : string) :
  Js.isWhiteSpace c = false -> Js.trimStart (String c rest) = String c rest.
Proof. intros W. simpl. now rewrite W. Qed.

Lemma trimEnd_head (c : ascii) (rest : string) :
  Js.trimEnd (String c rest) = EmptyString
  \/ exists kept, Js.trimEnd (String c rest) = String c kept.
Proof.
  simpl. destruct (Js.trimEnd rest).
  - destruct (Js.isWhiteSpace c); [now left | right; now eexists].
  - right. now eexists.
Qed.

Lemma trimEnd_trimEnd (s : string) : Js.trimEnd (Js.trimEnd s) = Js.trimEnd s.
Proof.
  induction s as [|c s IH]; [reflexivity|]. simpl.
  destruct (Js.trimEnd s) as [|d kept] eqn:E.
  - destruct (Js.isWhiteSpace c) eqn:W; [reflexivity|]. simpl. now rewrite W.
  - simpl in *. now rewrite IH.
Qed.

Lemma trim_trim (s : string) : Js.trim (Js.trim s) = Js.trim s.
Proof.
  unfold Js.trim. destruct (Js.trimStart s) as [|c rest] eqn:E; [reflexivity|].
  pose proof (trimStart_head s c rest E) as W.
  destruct (trimEnd_head c rest) as [Z|(kept & K)].
  - now rewrite Z.
  - rewrite K, (trimStart_fixed c kept W), <- K. apply trimEnd_trimEnd.
Qed.

End Trim.

(** ** Further properties of the direct-message hook *)

Section DirectMessageLaws.
Import DirectMessage HookSpec.

(** X14.  Whatever [handleSendMessage] sends is in normal form: the text of
    every message it passes to the service is not empty and trimming it
    again changes nothing, the message goes to the selected chat, and it is
    signed with the user's identifier. *)
Theorem handleSendMessage_sends_trimmed
    (sendMessage : MessagePayload -> string -> outcome Message)
    (now : Z) (user : User) (st : State)
    (messagePayload : MessagePayload) (chatID : string) :
  In (ApiSendMessage messagePayload chatID)
     (handleSendMessage sendMessage now user st).2 ->
  mp_msg messagePayload <> ""%string
  /\ Js.trim (mp_msg messagePayload) = mp_msg messagePayload
  /\ mp_chat messagePayload = chatID
  /\ (exists selected, selectedChat st = Some selected /\ chat_id selected = Some chatID)
  /\ user_id user = Some (mp_msgFrom messagePayload).
Proof.
  unfold handleSendMessage.
  destruct (Js.truthyStr (Js.trim (newMessage st))) eqn:T; simpl; [|intros []].
  destruct (selectedChat st) as [selected|]; [|intros []].
  destruct (chat_id selected) as [c|] eqn:Ec; simpl; [|intros []].
  destruct (Js.truthyStr c); [|intros []].
  destruct (user_id user) as [u|]; simpl; [|intros []].
  destruct (Js.truthyStr u); [|intros []].
  assert (N : Js.trim (newMessage st) <> ""%string).
  { intros Z. rewrite Z in T. discriminate T. }
  destruct (sendMessage _ c); simpl; intros [[= <- <-]|[]]; simpl;
    (repeat split; [exact N | apply trim_trim | now exists selected]).
Qed.

Lemma deliverAll_app (a b : list Action) (rooms : gset string) :
  deliverAll (a ++ b) rooms = deliverAll b (deliverAll a rooms).
Proof. apply fold_left_app. Qed.

(** What the clean-up means for the rooms: the room of the open chat is
    left. *)
Lemma deliverAll_cleanup (st : State) (rooms : gset string) :
  deliverAll (cleanup st) rooms
  = match openChat st with
    | Some room => rooms ∖ {[room]}
    | None => rooms
    end.
Proof.
  unfold cleanup, openChat, deliverAll.
  destruct (selectedChat st) as [[[old|] ? ?]|]; cbn [chat_id Js.whenTruthy fold_left deliver];
    [|reflexivity|reflexivity].
  unfold Js.truthyStr. destruct (String.eqb old "") eqn:E; cbn [negb fold_left deliver];
    [reflexivity|].
  change (receive "leaveChat") with onLeaveChat. unfold onLeaveChat, Js.truthyStr.
  now rewrite E.
Qed.

Lemma deliverAll_effect
    (getChatsByUser : string -> outcome (list Chat)) (user : User) (st : State)
    (rooms : gset string) :
  deliverAll (runEffect getChatsByUser user st).2 rooms = rooms
  /\ selectedChat (runEffect getChatsByUser user st).1 = selectedChat st.
Proof.
  unfold runEffect, fetchChats.
  destruct (Js.whenTruthy (user_id user)) as [userID|];
    [destruct (getChatsByUser userID)|]; split; reflexivity.
Qed.

Lemma selectChat_run
    (getChatById : string -> outcome Chat)
    (getChatsByUser : string -> outcome (list Chat))
    (user : User) (id : string) (chat : Chat) (st : State) (rooms : gset string) :
  id <> ""%string ->
  getChatById id = Resolved chat ->
  selectedChat (selectChat getChatById getChatsByUser user (Some id) st).1 = Some chat
  /\ deliverAll (selectChat getChatById getChatsByUser user (Some id) st).2 rooms
     = match openChat st with
       | Some room => ({[id]} ∪ rooms) ∖ {[room]}
       | None => {[id]} ∪ rooms
       end.
Proof.
  intros N G.
  assert (T : Js.truthyStr id = true).
  { unfold Js.truthyStr. apply String.eqb_neq in N. now rewrite N. }
  unfold selectChat, handleChatSelect, rerender.
  cbn [Js.whenTruthy]. rewrite T, G.
  pose proof (deliverAll_effect getChatsByUser user (setSelectedChat (Some chat) st)) as E.
  destruct (runEffect getChatsByUser user (setSelectedChat (Some chat) st)) as [st2 actions].
  cbn [fst snd] in *. split; [apply (E rooms)|].
  rewrite !deliverAll_app, (proj1 (E _)), deliverAll_cleanup.
  unfold deliverAll, handleJoinChat. cbn [fold_left deliver].
  change (receive "joinChat") with onJoinChat. unfold onJoinChat. now rewrite T.
Qed.

(** X15.  Selecting a chat, seen from the server, up to the end of the
    render that follows.  After a successful [handleChatSelect] the fetched
    chat is selected.  The connection is then in the room of the requested
    chat unless that chat was the one already open: the clean-up of the
    previous effect runs after ['joinChat'] and leaves the room of the chat
    that was open, so the connection ends up in exactly the rooms it was in
    and the requested one, without the room of the chat that was open.
    Unmounting afterwards leaves the room named by the fetched chat's own
    identifier. *)
Theorem select_then_rerender
    (getChatById : string -> outcome Chat)
    (getChatsByUser : string -> outcome (list Chat))
    (user : User) (id : string) (chat : Chat) (st : State) (rooms : gset string) :
  id <> ""%string ->
  getChatById id = Resolved chat ->
  let run := selectChat getChatById getChatsByUser user (Some id) st in
  selectedChat run.1 = Some chat
  /\ (forall room,
        room ∈ deliverAll run.2 rooms
        <-> (room = id \/ room ∈ rooms) /\ openChat st <> Some room)
  /\ (chat_id chat = Some id ->
      id ∉ deliverAll (cleanup run.1) (deliverAll run.2 rooms)).
Proof.
  intros N G run.
  destruct (selectChat_run getChatById getChatsByUser user id chat st rooms N G)
    as [S D].
  fold run in S, D. split; [exact S|]. split.
  - intros room. rewrite D. destruct (openChat st) as [old|].
    + destruct (decide (room = old)) as [->|Neq].
      * split; [set_solver | intros [_ C]; now contradiction C].
      * split; [intros I; split; [set_solver | congruence] | intros [I _]; set_solver].
    + split; [intros I; split; [set_solver | discriminate] | intros [I _]; set_solver].
  - intros Ec. rewrite deliverAll_cleanup. unfold openChat. rewrite S, Ec.
    apply String.eqb_neq in N. rewrite N. set_solver.
Qed.

(** X16.  [handleCreateChat] asks for a chat exactly when a name that is
    not blank is typed in and the user has an identifier; otherwise it calls
    nothing and leaves the state as it is.  The call carries two members:
    the user's identifier, then the name without the white space at its two
    ends, which is not empty.  When the call fails the handler rejects with
    that failure, the state stays as it is and nothing is sent on the
    socket.  When it succeeds the new chat is appended to the list and
    selected, the panel is hidden and the name cleared, the draft is kept,
    and ['joinChat'] is sent for the new chat's identifier exactly when it
    has one. *)
Theorem handleCreateChat_creates
    (createChat : list string -> outcome Chat) (user : User) (st : State) :
  let '(settled, st1, actions) := handleCreateChat createChat user st in
  if canCreate user st then
    exists userID name,
      user_id user = Some userID
      /\ trimmedOf (chatToCreate st) name
      /\ name <> ""%string
      /\ match createChat [userID; name] with
         | Resolved newChat =>
             settled = Resolved tt
             /\ st1 = mkState false "" (Some newChat) (chats st ++ [newChat]) (newMessage st)
             /\ actions
                = ApiCreateChat [userID; name]
                  :: (if hasId (chat_id newChat)
                      then [Emitted "joinChat"
                              (match chat_id newChat with
                               | Some i => i
                               | None => ""%string
                               end)]
                      else [])
         | Rejected e =>
             settled = Rejected e /\ st1 = st /\ actions = [ApiCreateChat [userID; name]]
         end
  else settled = Resolved tt /\ st1 = st /\ actions = [].
Proof.
  unfold handleCreateChat, canCreate. rewrite trim_blank_iff.
  destruct (blank (chatToCreate st)) eqn:B; cbn [negb andb]; [auto|].
  assert (N : Js.trim (chatToCreate st) <> ""%string).
  { intros Z. apply (trimmedOf_empty _ _ (trim_trimmedOf (chatToCreate st))) in Z.
    congruence. }
  destruct (user_id user) as [userID|]; cbn [Js.whenTruthy hasId]; [|auto].
  unfold Js.truthyStr at 1.
  destruct (String.eqb userID ""); cbn [negb]; [auto|].
  destruct (createChat _) as [newChat|e] eqn:C;
    exists userID, (Js.trim (chatToCreate st));
    (split; [reflexivity|]); (split; [apply trim_trimmedOf|]); (split; [exact N|]);
    rewrite C; [|auto].
  split; [reflexivity|]. split; [reflexivity|]. f_equal.
  destruct (chat_id newChat) as [i|]; cbn [Js.whenTruthy hasId]; [|reflexivity].
  unfold Js.truthyStr. now destruct (String.eqb i "").
Qed.

(** X17.  A ['chatUpdate'] only ever adds: after [handleChatUpdate] the
    list of chats is the old list followed by at most one chat, the same
    chat is selected as before, with the same identifier and participants
    and with its old messages followed by at most one entry, and the draft,
    the panel and the name typed in are untouched. *)
Theorem handleChatUpdate_only_adds (chatUpdate : ChatUpdatePayload) (st : State) :
  (exists added, chats (handleChatUpdate chatUpdate st) = chats st ++ added
                 /\ (length added <= 1)%nat)
  /\ match selectedChat st with
     | Some selected =>
         exists selected1 extra,
           selectedChat (handleChatUpdate chatUpdate st) = Some selected1
           /\ chat_id selected1 = chat_id selected
           /\ participants selected1 = participants selected
           /\ messages selected1 = messages selected ++ extra
           /\ (length extra <= 1)%nat
     | None => selectedChat (handleChatUpdate chatUpdate st) = None
     end
  /\ newMessage (handleChatUpdate chatUpdate st) = newMessage st
  /\ showCreatePanel (handleChatUpdate chatUpdate st) = showCreatePanel st
  /\ chatToCreate (handleChatUpdate chatUpdate st) = chatToCreate st.
Proof.
  unfold handleChatUpdate.
  destruct (String.eqb (update_type chatUpdate) "created").
  - simpl. split; [exists [update_chat chatUpdate]; split; [reflexivity | simpl; lia]|].
    split; [|repeat split].
    destruct (selectedChat st) as [selected|]; [|reflexivity].
    exists selected, []. rewrite app_nil_r. repeat split. simpl. lia.
  - destruct (String.eqb (update_type chatUpdate) "newMessage").
    + destruct (selectedChat st) as [selected|] eqn:S.
      * destruct (Js.strictEq _ _); simpl.
        -- split; [exists []; rewrite app_nil_r; split; [reflexivity | simpl; lia]|].
           split; [|repeat split].
           eexists _, [_]. repeat split. simpl. lia.
        -- rewrite S.
           split; [exists []; rewrite app_nil_r; split; [reflexivity | simpl; lia]|].
           split; [|repeat split].
           exists selected, []. rewrite app_nil_r. repeat split. simpl. lia.
      * rewrite S.
        split; [exists []; rewrite app_nil_r; split; [reflexivity | simpl; lia]|].
        repeat split.
    + split; [exists []; rewrite app_nil_r; split; [reflexivity | simpl; lia]|].
      split; [|repeat split].
      destruct (selectedChat st) as [selected|]; [|reflexivity].
      exists selected, []. rewrite app_nil_r. repeat split. simpl. lia.
Qed.

End DirectMessageLaws.

(** Sending the draft of the sample state. *)
Lemma handleSendMessage_sends_trimmed_witness :
  In (DirectMessage.ApiSendMessage (DirectMessage.mkMessagePayload "c1" "u1" "see you" 9) "c1")
     (DirectMessage.handleSendMessage Sample.echo 9 Sample.alice Sample.drafting).2
  /\ Js.trim "see you" = "see you"%string.
Proof.
  assert (sent :
    In (DirectMessage.ApiSendMessage
          (DirectMessage.mkMessagePayload "c1" "u1" "see you" 9) "c1")
       (DirectMessage.handleSendMessage Sample.echo 9 Sample.alice Sample.drafting).2).
  { simpl. left. reflexivity. }
  split; [exact sent|].
  apply (handleSendMessage_sends_trimmed Sample.echo 9 Sample.alice Sample.drafting
           (DirectMessage.mkMessagePayload "c1" "u1" "see you" 9) "c1" sent).
Defined.

(** Selecting again the chat that is open: the connection was in its room
    and is out of it afterwards. *)
Lemma select_then_rerender_witness :
  "c1"%string <> ""%string
  /\ Sample.fetchOpened "c1" = Resolved Sample.opened
  /\ HookSpec.openChat Sample.drafting = Some "c1"%string
  /\ ~ ("c1"%string
        ∈ deliverAll
            (DirectMessage.selectChat Sample.fetchOpened (fun _ => Resolved [])
               Sample.alice (Some "c1"%string) Sample.drafting).2
            {["c1"%string]}).
Proof.
  assert (named : "c1"%string <> ""%string) by discriminate.
  split; [exact named|]. split; [reflexivity|]. split; [reflexivity|].
  destruct (select_then_rerender Sample.fetchOpened (fun _ => Resolved [])
              Sample.alice "c1" Sample.opened Sample.drafting {["c1"%string]}
              named eq_refl) as (_ & inRooms & _).
  intros I. apply inRooms in I as [_ C]. now apply C.
Defined.

(** ** Further properties of the game-page hook *)

Section GamePageLaws.
Import GamePage HookSpec.

(** X18.  Joining and then leaving.  With a game identifier in the route,
    the hook calls [joinGame] for it.  After a successful join it holds the
    game and its identifier with no error, and leaving then calls
    [leaveGame] for that same game and player, unless the joined game is
    already over.  After a failed join it holds neither, shows the error,
    and leaving calls nothing.  Without an identifier nothing happens. *)
Theorem join_then_leave
    (joinGame leaveGame : string -> string -> outcome GameInstance)
    (socket : bool) (userId gameID : option string) (st : State) :
  let playerID := match userId with Some u => u | None => ""%string end in
  let joined := joinOnMount joinGame socket userId gameID st in
  match Js.whenTruthy gameID with
  | Some id =>
      match joinGame id playerID with
      | Resolved game =>
          joined.1 = mkState (Some game) (Some id) None
          /\ joined.2
             = ApiJoinGame id playerID
               :: (if socket then [JoinEmitted "joinGame" id] else [])
          /\ (handleLeaveGame leaveGame socket userId joined.1).2
             = if String.eqb (status (state game)) "OVER"
               then [Navigate "/games"]
               else ApiLeaveGame id playerID
                    :: (if isResolved (leaveGame id playerID) && socket
                        then [SocketEmit "leaveGame" id] else [])
                    ++ [Navigate "/games"]
      | Rejected _ =>
          joined.1 = mkState None None (Some "Failed to join the game."%string)
          /\ joined.2 = [ApiJoinGame id playerID]
          /\ (handleLeaveGame leaveGame socket userId joined.1).2 = [Navigate "/games"]
      end
  | None => joined = (st, [])
  end.
Proof.
  unfold joinOnMount, handleJoinGame.
  destruct (Js.whenTruthy gameID) as [id|] eqn:G; cbn zeta; [|reflexivity].
  assert (T : Js.whenTruthy (Some id) = Some id).
  { destruct gameID as [g|]; [|discriminate]. simpl in G.
    destruct (Js.truthyStr g) eqn:Tg; [|discriminate]. injection G as ->.
    simpl. now rewrite Tg. }
  destruct (joinGame id _) as [game|e]; cbn [fst snd]; (split; [reflexivity|]);
    (split; [reflexivity|]).
  - unfold handleLeaveGame. cbn [joinedGameID gameState setError setJoinedGameID
      setGameState]. rewrite T.
    destruct (String.eqb (status (state game)) "OVER"); [reflexivity|]. cbn [negb].
    destruct (leaveGame id _); [destruct socket|]; reflexivity.
  - reflexivity.
Qed.

(** X19.  What the two socket listeners mean for leaving.  After
    ['gameUpdate'] the hook leaves the game it has joined according to the
    status of the updated state: no [leaveGame] call once an update says
    the game is over.  ['gameError'] changes nothing for leaving, and is
    shown only when it names this user. *)
Theorem listeners_then_leave
    (leaveGame : string -> string -> outcome GameInstance)
    (socket : bool) (userId : option string)
    (updated : GameInstance) (player gameError : string) (st : State) :
  let playerID := match userId with Some u => u | None => ""%string end in
  (handleLeaveGame leaveGame socket userId (handleGameUpdate updated st)).2
  = match Js.whenTruthy (joinedGameID st) with
    | Some joined =>
        if String.eqb (status (state updated)) "OVER"
        then [Navigate "/games"]
        else ApiLeaveGame joined playerID
             :: (if isResolved (leaveGame joined playerID) && socket
                 then [SocketEmit "leaveGame" joined] else [])
             ++ [Navigate "/games"]
    | None => [Navigate "/games"]
    end
  /\ handleLeaveGame leaveGame socket userId (handleGameError player gameError userId st)
     = handleLeaveGame leaveGame socket userId st
  /\ (userId <> Some player -> handleGameError player gameError userId st = st).
Proof.
  cbn zeta. split; [|split].
  - unfold handleLeaveGame, handleGameUpdate. cbn [joinedGameID gameState setGameState].
    destruct (Js.whenTruthy (joinedGameID st)) as [joined|]; [|reflexivity].
    destruct (String.eqb (status (state updated)) "OVER"); [reflexivity|]. cbn [negb].
    destruct (leaveGame joined _); [destruct socket|]; reflexivity.
  - unfold handleGameError. destruct (Js.strictEq _ _); [|reflexivity].
    unfold handleLeaveGame. cbn [joinedGameID gameState setError].
    destruct (Js.whenTruthy (joinedGameID st)) as [joined|]; [|reflexivity].
    destruct (gameState st) as [game|]; [|reflexivity].
    destruct (String.eqb (status (state game)) "OVER"); [reflexivity|]. cbn [negb].
    destruct (leaveGame joined _); reflexivity.
  - intros N. unfold handleGameError.
    destruct userId as [u|]; [|reflexivity]. simpl.
    destruct (String.eqb player u) eqn:E; [|reflexivity].
    apply String.eqb_eq in E. subst. contradiction.
Qed.

End GamePageLaws.

(** Going through the members of a short list of actions. *)
Ltac members I :=
  simpl in I;
  repeat match type of I with
         | _ \/ _ => destruct I as [I|I]
         | False => destruct I
         end;
  try discriminate I.

(** ** The authentication hook *)

Section AuthLaws.
Import Auth.

Lemma validateInputs_state (authType : AuthType) (st : State) :
  (validateInputs authType st).1 = true -> (validateInputs authType st).2 = st.
Proof.
  unfold validateInputs.
  destruct (Js.truthyStr (Js.trim (username st))); [|discriminate].
  destruct (Js.truthyStr (Js.trim (password st))); [|discriminate].
  destruct authType; [reflexivity|]. cbn [negb].
  destruct (Js.truthyStr (Js.trim (passwordConfirmation st))); [|discriminate].
  destruct (String.eqb (password st) (passwordConfirmation st)); [reflexivity|discriminate].
Qed.

Lemma validateInputs_accepts (authType : AuthType) (st : State) :
  (validateInputs authType st).1 = true ->
  Js.trim (username st) <> ""%string
  /\ Js.trim (password st) <> ""%string
  /\ (authType = Signup ->
      Js.trim (passwordConfirmation st) <> ""%string
      /\ password st = passwordConfirmation st).
Proof.
  unfold validateInputs.
  destruct (Js.truthyStr (Js.trim (username st))) eqn:Tu; [|discriminate].
  destruct (Js.truthyStr (Js.trim (password st))) eqn:Tp; [|discriminate].
  assert (Nu : Js.trim (username st) <> ""%string).
  { intros Z. rewrite Z in Tu. discriminate Tu. }
  assert (Np : Js.trim (password st) <> ""%string).
  { intros Z. rewrite Z in Tp. discriminate Tp. }
  destruct authType; cbn [negb].
  - intros _. repeat split; try assumption; discriminate.
  - destruct (Js.truthyStr (Js.trim (passwordConfirmation st))) eqn:Tc; [|discriminate].
    destruct (String.eqb (password st) (passwordConfirmation st)) eqn:E; [|discriminate].
    intros _. split; [exact Nu|]. split; [exact Np|]. intros _. split.
    + intros Z. rewrite Z in Tc. discriminate Tc.
    + now apply String.eqb_eq.
Qed.

(** X20.  [handleSubmit] never sends what [validateInputs] would refuse:
    every call of [loginUser] or [createUser] carries the user name and the
    password exactly as typed, neither of them blank; [loginUser] is called
    only for a login and [createUser] only for a sign-up, and then only when
    the confirmation equals the password. *)
Theorem handleSubmit_sends_valid_credentials
    (loginUser createUser : Credentials -> outcome DirectMessage.User)
    (authType : AuthType) (st : State) (c : Credentials) :
  In (ApiLoginUser c) (handleSubmit loginUser createUser authType st).2
  \/ In (ApiCreateUser c) (handleSubmit loginUser createUser authType st).2 ->
  c = mkCredentials (username st) (password st)
  /\ Js.trim (cred_username c) <> ""%string
  /\ Js.trim (cred_password c) <> ""%string
  /\ (In (ApiLoginUser c) (handleSubmit loginUser createUser authType st).2 ->
      authType = Login)
  /\ (In (ApiCreateUser c) (handleSubmit loginUser createUser authType st).2 ->
      authType = Signup /\ password st = passwordConfirmation st).
Proof.
  pose proof (validateInputs_accepts authType st) as A.
  unfold handleSubmit in *.
  destruct (validateInputs authType st) as [[|] st1]; cbn [fst] in A.
  - destruct (A eq_refl) as (Nu & Np & Ns). clear A.
    destruct authType.
    + destruct (loginUser _); cbn [snd]; intros [I|I]; members I;
        injection I as <-;
        (split; [reflexivity|]; split; [exact Nu|]; split; [exact Np|]);
        (split; intros J; members J; reflexivity).
    + destruct (Ns eq_refl) as [_ E].
      destruct (createUser _); cbn [snd]; intros [I|I]; members I;
        injection I as <-;
        (split; [reflexivity|]; split; [exact Nu|]; split; [exact Np|]);
        (split; intros J; members J; split; [reflexivity | exact E]).
  - cbn [snd]. intros [I|I]; members I.
Qed.

(** X21.  What a submission does to the form.  [handleSubmit] never
    changes the fields, only the error text, and it sets an error text only
    when it has sent nothing.  Once a request has been sent the state is
    left exactly as it was, also when the request fails: a failure is only
    logged.  It navigates, to ['/home'] and nowhere else, only after the
    service has answered with a user, who is then handed to [setUser]. *)
Theorem handleSubmit_outcome
    (loginUser createUser : Credentials -> outcome DirectMessage.User)
    (authType : AuthType) (st : State) :
  let '(st1, actions) := handleSubmit loginUser createUser authType st in
  let api := match authType with Login => loginUser | Signup => createUser end in
  (username st1 = username st /\ password st1 = password st
   /\ passwordConfirmation st1 = passwordConfirmation st
   /\ showPassword st1 = showPassword st)
  /\ (err st1 <> err st -> actions = [PreventDefault])
  /\ ((exists c, In (ApiLoginUser c) actions \/ In (ApiCreateUser c) actions) -> st1 = st)
  /\ (forall path, In (Navigate path) actions ->
        path = "/home"%string
        /\ exists user,
             api (mkCredentials (username st) (password st)) = Resolved user
             /\ In (SetUser user) actions).
Proof.
  pose proof (validateInputs_state authType st) as V.
  unfold handleSubmit.
  destruct (validateInputs authType st) as [[|] st1] eqn:E; cbn [fst snd] in V.
  - rewrite (V eq_refl).
    destruct authType;
      [destruct (loginUser _) as [user|e] eqn:A | destruct (createUser _) as [user|e] eqn:A].
    all: split; [repeat split|]; split; [intros N; now contradiction N|];
      split; [reflexivity|]; intros path I; members I.
    all: injection I as <-; split; [reflexivity|]; exists user;
      split; [reflexivity || exact A|]; simpl; auto.
  - split; [|split; [reflexivity|split]].
    + unfold validateInputs in E.
      destruct (Js.truthyStr (Js.trim (username st)));
        [|injection E as <-; repeat split].
      destruct (Js.truthyStr (Js.trim (password st)));
        [|injection E as <-; repeat split].
      destruct authType; [discriminate E|]. cbn [negb] in E.
      destruct (Js.truthyStr (Js.trim (passwordConfirmation st)));
        [|injection E as <-; repeat split].
      destruct (String.eqb (password st) (passwordConfirmation st));
        [discriminate E | injection E as <-; repeat split].
    + intros (c & [I|I]); members I.
    + intros path I; members I.
Qed.

(** X22.  From typing to sending: when a non-blank user name and password
    have been typed in, a login submission calls [loginUser] with exactly
    the typed text, untrimmed; with the same password typed as
    confirmation, a sign-up submission calls [createUser] with it. *)
Theorem typed_credentials_are_sent
    (loginUser createUser : Credentials -> outcome DirectMessage.User)
    (name secret : string) (st : State) :
  Js.truthyStr (Js.trim name) = true ->
  Js.truthyStr (Js.trim secret) = true ->
  (exists rest,
      (handleSubmit loginUser createUser Login
         (handleInputChange secret PasswordField
            (handleInputChange name UsernameField st))).2
      = PreventDefault :: ApiLoginUser (mkCredentials name secret) :: rest)
  /\ (exists rest,
        (handleSubmit loginUser createUser Signup
           (handleInputChange secret ConfirmPasswordField
              (handleInputChange secret PasswordField
                 (handleInputChange name UsernameField st)))).2
        = PreventDefault :: ApiCreateUser (mkCredentials name secret) :: rest).
Proof.
  intros Tn Ts. unfold handleSubmit, validateInputs. simpl.
  rewrite Tn, Ts, String.eqb_refl. simpl. split.
  - destruct (loginUser _); eexists; reflexivity.
  - destruct (createUser _); eexists; reflexivity.
Qed.

End AuthLaws.

(** Logging in with the sample form. *)
Lemma handleSubmit_sends_valid_credentials_witness :
  (In (Auth.ApiLoginUser (Auth.mkCredentials "alice" "secret"))
      (Auth.handleSubmit Sample.welcome Sample.welcome Auth.Login Sample.loginForm).2
   \/ In (Auth.ApiCreateUser (Auth.mkCredentials "alice" "secret"))
         (Auth.handleSubmit Sample.welcome Sample.welcome Auth.Login Sample.loginForm).2)
  /\ Js.trim "alice" <> ""%string.
Proof.
  assert (sent :
    In (Auth.ApiLoginUser (Auth.mkCredentials "alice" "secret"))
       (Auth.handleSubmit Sample.welcome Sample.welcome Auth.Login Sample.loginForm).2
    \/ In (Auth.ApiCreateUser (Auth.mkCredentials "alice" "secret"))
          (Auth.handleSubmit Sample.welcome Sample.welcome Auth.Login Sample.loginForm).2).
  { left. simpl. right. left. reflexivity. }
  split; [exact sent|].
  apply (handleSubmit_sends_valid_credentials Sample.welcome Sample.welcome Auth.Login
           Sample.loginForm (Auth.mkCredentials "alice" "secret") sent).
Defined.

(** Typing a name and a password into the sample form. *)
Lemma typed_credentials_are_sent_witness :
  Js.truthyStr (Js.trim "bob") = true
  /\ Js.truthyStr (Js.trim " pw ") = true
  /\ exists rest,
       (Auth.handleSubmit Sample.welcome Sample.welcome Auth.Login
          (Auth.handleInputChange " pw " Auth.PasswordField
             (Auth.handleInputChange "bob" Auth.UsernameField Sample.loginForm))).2
       = Auth.PreventDefault :: Auth.ApiLoginUser (Auth.mkCredentials "bob" " pw ") :: rest.
Proof.
  split; [reflexivity|]. split; [reflexivity|].
  apply (typed_credentials_are_sent Sample.welcome Sample.welcome "bob" " pw "
           Sample.loginForm).
  - reflexivity.
  - reflexivity.
Defined.

(** ** The profile-settings hook *)

Section ProfileLaws.
Import ProfileSettings.

Lemma messageOrElse_nonempty (fallback : string) (e : thrown) :
  fallback <> ""%string -> messageOrElse fallback e <> ""%string.
Proof.
  intros N. destruct e as [m|r]; simpl; [|exact N].
  destruct (Js.truthyStr m) eqn:T; [|exact N].
  intros Z. rewrite Z in T. discriminate T.
Qed.

Lemma handleResetPassword_actions
    (resetPassword : string -> string -> outcome DirectMessage.User)
    (username : option string) (st : State) :
  (handleResetPassword resetPassword username st).2
  = match Js.whenTruthy username with
    | Some name =>
        if validatePasswords st then [ApiResetPassword name (newPassword st)] else []
    | None => []
    end.
Proof.
  unfold handleResetPassword, validatePasswords.
  destruct (Js.whenTruthy username) as [name|]; [|reflexivity].
  destruct (Js.truthyStr (newPassword st)); [|reflexivity].
  destruct (Js.truthyStr (confirmNewPassword st)); [|reflexivity].
  destruct (String.eqb (newPassword st) (confirmNewPassword st)); [|reflexivity].
  simpl. now destruct (resetPassword name (newPassword st)).
Qed.

(** X23.  [handleResetPassword] calls the service exactly when there is a
    user name in the route and [validatePasswords] holds, that is, when both
    fields are filled in and equal; it then sends the new password as
    typed, and sends nothing otherwise. *)
Theorem handleResetPassword_calls
    (resetPassword : string -> string -> outcome DirectMessage.User)
    (username : option string) (st : State) :
  (handleResetPassword resetPassword username st).2
  = match Js.whenTruthy username with
    | Some name =>
        if validatePasswords st then [ApiResetPassword name (newPassword st)] else []
    | None => []
    end.
Proof. apply handleResetPassword_actions. Qed.

(** X24.  How the handlers of the profile page settle.  Without a user
    name in the route they do nothing at all.  With one, every handler that
    calls a service ends with the loading flag off, whether the call
    succeeded or not; and after a password reset or a biography update
    exactly one of the success and error messages is shown, the error never
    being empty. *)
Theorem profile_handlers_settle
    (getUserByUsername : string -> outcome DirectMessage.User)
    (resetPassword updateBiography : string -> string -> outcome DirectMessage.User)
    (username : option string) (st : State) :
  let reset := handleResetPassword resetPassword username st in
  let update := handleUpdateBiography updateBiography username st in
  let fetch := fetchUserData getUserByUsername username st in
  match Js.whenTruthy username with
  | None => reset = (st, []) /\ update = (st, []) /\ fetch = (st, [])
  | Some name =>
      (reset.2 <> [] -> loading reset.1 = false)
      /\ loading update.1 = false
      /\ loading fetch.1 = false
      /\ oneMessage reset.1
      /\ oneMessage update.1
  end.
Proof.
  cbn zeta. unfold handleResetPassword, handleUpdateBiography, fetchUserData, oneMessage.
  destruct (Js.whenTruthy username) as [name|]; [|repeat split].
  split; [|split; [|split; [|split]]].
  - destruct (negb _ || negb _); [intros N; now contradiction N|].
    destruct (negb _); [intros N; now contradiction N|].
    now destruct (resetPassword _ _).
  - now destruct (updateBiography _ _).
  - now destruct (getUserByUsername _).
  - destruct (negb _ || negb _); [left; simpl; split; [reflexivity|eexists; split;
      [reflexivity|discriminate]]|].
    destruct (negb _); [left; simpl; split; [reflexivity|eexists; split;
      [reflexivity|discriminate]]|].
    destruct (resetPassword _ _) as [u|e]; simpl.
    + right. split; [reflexivity | now eexists].
    + left. split; [reflexivity|]. eexists. split; [reflexivity|].
      apply messageOrElse_nonempty. discriminate.
  - destruct (updateBiography _ _) as [u|e]; simpl.
    + right. split; [reflexivity | now eexists].
    + left. split; [reflexivity|]. eexists. split; [reflexivity|].
      apply messageOrElse_nonempty. discriminate.
Qed.

(** X25.  A reset cannot be repeated by accident.  After a successful
    reset both password fields are empty, so a second [handleResetPassword]
    sends nothing and asks to fill in both fields.  After a failed reset the
    fields are kept as typed, and a second attempt sends the same
    password again. *)
Theorem reset_again
    (resetPassword again : string -> string -> outcome DirectMessage.User)
    (username : option string) (name : string) (st : State) :
  Js.whenTruthy username = Some name ->
  validatePasswords st = true ->
  let st1 := (handleResetPassword resetPassword username st).1 in
  match resetPassword name (newPassword st) with
  | Resolved _ =>
      newPassword st1 = ""%string /\ confirmNewPassword st1 = ""%string
      /\ (handleResetPassword again username st1).2 = []
      /\ errorMessage (handleResetPassword again username st1).1
         = Some "Please fill in both password fields."%string
  | Rejected _ =>
      newPassword st1 = newPassword st /\ confirmNewPassword st1 = confirmNewPassword st
      /\ (handleResetPassword again username st1).2
         = [ApiResetPassword name (newPassword st)]
  end.
Proof.
  intros U V. cbn zeta.
  remember (handleResetPassword resetPassword username st).1 as st1 eqn:S1.
  unfold handleResetPassword in S1. rewrite U in S1.
  unfold validatePasswords in V.
  destruct (Js.truthyStr (newPassword st)) eqn:T1; [|discriminate].
  destruct (Js.truthyStr (confirmNewPassword st)) eqn:T2; [|discriminate].
  destruct (String.eqb (newPassword st) (confirmNewPassword st)) eqn:E; [|discriminate].
  cbn [negb orb] in S1.
  destruct (resetPassword name (newPassword st)) as [u|e]; cbn [fst] in S1; subst st1.
  - split; [reflexivity|]. split; [reflexivity|].
    unfold handleResetPassword. rewrite U. split; reflexivity.
  - split; [reflexivity|]. split; [reflexivity|].
    rewrite handleResetPassword_actions, U. unfold validatePasswords. simpl.
    now rewrite T1, T2, E.
Qed.

(** X26.  Deleting a user takes two steps.  [handleDeleteUser] calls no
    service: it clears both messages, shows the confirmation and stores the
    action for the user name of the route.  Running the stored action calls
    [deleteUser] for that name and always hides the confirmation again; it
    navigates to ['/'] only when the deletion succeeded, shows exactly one
    message, and leaves the loading flag on. *)
Theorem delete_in_two_steps
    (deleteUser : string -> outcome DirectMessage.User)
    (username : option string) (st : State) :
  match Js.whenTruthy username with
  | None => handleDeleteUser username st = st
  | Some name =>
      let armed := handleDeleteUser username st in
      let done := runPending deleteUser (DeleteUser name) armed in
      pendingAction armed = Some (DeleteUser name)
      /\ showConfirmation armed = true
      /\ successMessage armed = None /\ errorMessage armed = None
      /\ showConfirmation done.1 = false
      /\ loading done.1 = true
      /\ oneMessage done.1
      /\ done.2 = match deleteUser name with
                  | Resolved _ => [ApiDeleteUser name; Navigate "/"]
                  | Rejected _ => [ApiDeleteUser name]
                  end
  end.
Proof.
  unfold handleDeleteUser, runPending, oneMessage.
  destruct (Js.whenTruthy username) as [name|]; [|reflexivity]. cbn zeta.
  destruct (deleteUser name) as [u|e]; simpl; repeat split.
  - right. split; [reflexivity | now eexists].
  - left. split; [reflexivity|]. eexists. split; [reflexivity|].
    apply messageOrElse_nonempty. discriminate.
Qed.

End ProfileLaws.

(** Resetting the password of the sample form, twice. *)
Lemma reset_again_witness :
  Js.whenTruthy (Some "alice"%string) = Some "alice"%string
  /\ ProfileSettings.validatePasswords Sample.passwordForm = true
  /\ (ProfileSettings.handleResetPassword Sample.accepted (Some "alice"%string)
        (ProfileSettings.handleResetPassword Sample.accepted (Some "alice"%string)
           Sample.passwordForm).1).2
     = [].
Proof.
  split; [reflexivity|]. split; [reflexivity|].
  apply (reset_again Sample.accepted Sample.accepted (Some "alice"%string) "alice"
           Sample.passwordForm).
  - reflexivity.
  - reflexivity.
Defined.
